(** * Aristochart v2: the runtime core

    A shallow embedding of [Aristochart.v2.js]: the error gate
    ([Aristochart.Error] and [Aristochart.DEBUG]), the easing table, the
    primitive factory with its instances and their animation queue, the
    registry, the pointer dispatcher in [Aristochart.prototype.update], the
    click listener and the render engine.

    Conventions of the embedding.
    - JavaScript numbers are exact rationals ([Q]) and their operations
      are those of exact arithmetic.  An expression of the source is
      written operation by operation; what the host computes for it differs
      from its value here by the rounding of the host's floating-point
      operations.  So a theorem gives a computed value as the source's
      expression, and an equation between such an expression and a simpler
      one (that the last frame of an animation writes the target) is an
      equation of exact arithmetic, which the host's doubles meet within
      their tolerance.  [NaN] and the infinities are not numbers of the
      model.  Where the source forms [x - v] for a [v] that need not be a
      number, the result is an [option Q] and [None] stands for [NaN].
    - Objects live in a store and are named by references; [===] and
      [indexOf] on objects compare references.
    - Functions handed in by the caller (render functions, event handlers,
      completion callbacks, [init]) are named by a reference too.  What the
      model knows of such a function is what it does to the properties of
      its [this] and whether it throws; that it could also reach the
      animation queue, the registry or the dispatcher, or write the hover
      flag [_mouseover] that the dispatcher keeps on the instance, is
      outside the model.
    - An exception is a result of its own ([Raise]), carrying the state in
      which it was raised. *)

From Stdlib Require Import QArith Qabs ZArith Lia.
From stdpp Require Import gmap strings list.

Open Scope Q_scope.

(** ** Values *)

Inductive value :=
| VUndef
| VNull
| VBool (b : bool)
| VNum (q : Q)
| VStr (s : string)
| VObj.

(** [!v] is [negb (truthy v)]. *)
Definition truthy (v : value) : bool :=
  match v with
  | VUndef | VNull => false
  | VBool b => b
  | VNum q => negb (Qeq_bool q 0)
  | VStr s => negb (String.eqb s "")
  | VObj => true
  end.

(** [v == undefined] *)
Definition eq_undefined (v : value) : bool :=
  match v with
  | VUndef | VNull => true
  | _ => false
  end.

(** [typeof v !== "number"] is [negb (is_number v)]. *)
Definition is_number (v : value) : bool :=
  match v with
  | VNum _ => true
  | _ => false
  end.

Abbreviation Props := (gmap string value).

Definition fnref := nat.
Definition ref := nat.

(** ** The host *)

(** What the source takes from the host and cannot be written over [Q]:
    the transcendental part of [Math], and the conversion of strings and
    objects to numbers. *)
Record Host := {
  Math_PI : Q;
  Math_sin : Q -> Q;
  Math_cos : Q -> Q;
  Math_asin : Q -> Q;
  Math_sqrt : Q -> Q;
  Math_pow : Q -> Q -> Q;
  ToNumber : value -> option Q
}.

(** A function of the caller: what it does to the properties of its
    [this], whether it throws, and that it leaves the dispatcher's
    [_mouseover] as it finds it. *)
Record UserFn := {
  fn_effect : Props -> Props;
  fn_raises : bool;
  fn_discreet : forall ps, fn_effect ps !! "_mouseover" = ps !! "_mouseover"
}.

(** The globals a run depends on: the flag [Aristochart.DEBUG], the host,
    and the code behind each function reference. *)
Record Globals := {
  DEBUG : bool;
  host : Host;
  code : fnref -> UserFn
}.

(** ** Exceptions and the state monad *)

Inductive exn :=
| AristochartError (message : string)
| TypeError (message : string)
| Thrown (f : fnref).

Inductive Res (S A : Type) :=
| Ret (a : A) (s : S)
| Raise (e : exn) (s : S).
Arguments Ret {S A} a s.
Arguments Raise {S A} e s.

Definition M (S A : Type) := S -> Res S A.

Definition ret {S A} (a : A) : M S A := fun s => Ret a s.

Definition raise {S A} (e : exn) : M S A := fun s => Raise e s.

Definition bind {S A B} (m : M S A) (k : A -> M S B) : M S B :=
  fun s =>
    match m s with
    | Ret a s' => k a s'
    | Raise e s' => Raise e s'
    end.

Definition get {S} : M S S := fun s => Ret s s.

Definition modify {S} (f : S -> S) : M S unit := fun s => Ret tt (f s).

Notation "x <- c ;; k" := (bind c (fun x => k))
  (at level 100, c at next level, right associativity).
Notation "c ;; k" := (bind c (fun _ => k))
  (at level 100, right associativity).

(** The state a result ends in, and whether it is an exception. *)
Definition final {S A} (r : Res S A) : S :=
  match r with
  | Ret _ s => s
  | Raise _ s => s
  end.

Definition raised {S A} (r : Res S A) : option exn :=
  match r with
  | Ret _ _ => None
  | Raise e _ => Some e
  end.

(** ** [Aristochart.Error] *)

Definition Aristochart_Error {S} (g : Globals) (msg : string) : M S unit :=
  if DEBUG g then raise (AristochartError ("Aristochart Error: " +:+ msg))
  else ret tt.

(** ** [Aristochart.Easing] *)

Inductive EasingName :=
| easeInQuad | easeOutQuad | easeInOutQuad
| easeInCubic | easeOutCubic | easeInOutCubic
| easeInQuart | easeOutQuart | easeInOutQuart
| easeInQuint | easeOutQuint | easeInOutQuint
| easeInSine | easeOutSine | easeInOutSine
| easeInExpo | easeOutExpo | easeInOutExpo
| easeInCirc | easeOutCirc | easeInOutCirc
| easeInElastic | easeOutElastic | easeInOutElastic
| easeInBack | easeOutBack | easeInOutBack
| easeInBounce | easeOutBounce | easeInOutBounce.

Definition Easing_table : list (string * EasingName) :=
  [ ("easeInQuad", easeInQuad); ("easeOutQuad", easeOutQuad);
    ("easeInOutQuad", easeInOutQuad);
    ("easeInCubic", easeInCubic); ("easeOutCubic", easeOutCubic);
    ("easeInOutCubic", easeInOutCubic);
    ("easeInQuart", easeInQuart); ("easeOutQuart", easeOutQuart);
    ("easeInOutQuart", easeInOutQuart);
    ("easeInQuint", easeInQuint); ("easeOutQuint", easeOutQuint);
    ("easeInOutQuint", easeInOutQuint);
    ("easeInSine", easeInSine); ("easeOutSine", easeOutSine);
    ("easeInOutSine", easeInOutSine);
    ("easeInExpo", easeInExpo); ("easeOutExpo", easeOutExpo);
    ("easeInOutExpo", easeInOutExpo);
    ("easeInCirc", easeInCirc); ("easeOutCirc", easeOutCirc);
    ("easeInOutCirc", easeInOutCirc);
    ("easeInElastic", easeInElastic); ("easeOutElastic", easeOutElastic);
    ("easeInOutElastic", easeInOutElastic);
    ("easeInBack", easeInBack); ("easeOutBack", easeOutBack);
    ("easeInOutBack", easeInOutBack);
    ("easeInBounce", easeInBounce); ("easeOutBounce", easeOutBounce);
    ("easeInOutBounce", easeInOutBounce) ].

Fixpoint assoc {A} (l : list (string * A)) (key : string) : option A :=
  match l with
  | [] => None
  | (k, a) :: rest => if String.eqb k key then Some a else assoc rest key
  end.

(** [Aristochart.Easing[name]], for the names the table itself holds.  The
    names every object inherits ([Object_prototype_names]) are found by the
    source's lookup as well, and what they name is no easing function: they
    are no easing names of the model. *)
Definition Easing (name : string) : option EasingName :=
  assoc Easing_table name.

Definition Object_prototype_names : list string :=
  [ "constructor"; "hasOwnProperty"; "isPrototypeOf"; "propertyIsEnumerable";
    "toLocaleString"; "toString"; "valueOf"; "__proto__";
    "__defineGetter__"; "__defineSetter__"; "__lookupGetter__";
    "__lookupSetter__" ].

(** [a < b] on numbers *)
Definition num_lt (a b : Q) : bool := negb (Qle_bool b a).

Section Easing.
Variable h : Host.

(** Each function is the source's [function (x, t, b, c, d)]; [x] is
    unused throughout and left out.  An assignment inside an expression
    ([t/=d], [--t], [s*=1.525]) is a [let].  The operations are those of
    the source in their order, over exact rationals. *)

Definition easeInQuad_fn (t b c d : Q) : Q :=
  let t := t / d in c * t * t + b.

Definition easeOutQuad_fn (t b c d : Q) : Q :=
  let t := t / d in - c * t * (t - 2) + b.

Definition easeInOutQuad_fn (t b c d : Q) : Q :=
  let t := t / (d / 2) in
  if num_lt t 1 then c / 2 * t * t + b
  else let t := t - 1 in - c / 2 * (t * (t - 2) - 1) + b.

Definition easeInCubic_fn (t b c d : Q) : Q :=
  let t := t / d in c * t * t * t + b.

Definition easeOutCubic_fn (t b c d : Q) : Q :=
  let t := t / d - 1 in c * (t * t * t + 1) + b.

Definition easeInOutCubic_fn (t b c d : Q) : Q :=
  let t := t / (d / 2) in
  if num_lt t 1 then c / 2 * t * t * t + b
  else let t := t - 2 in c / 2 * (t * t * t + 2) + b.

Definition easeInQuart_fn (t b c d : Q) : Q :=
  let t := t / d in c * t * t * t * t + b.

Definition easeOutQuart_fn (t b c d : Q) : Q :=
  let t := t / d - 1 in - c * (t * t * t * t - 1) + b.

Definition easeInOutQuart_fn (t b c d : Q) : Q :=
  let t := t / (d / 2) in
  if num_lt t 1 then c / 2 * t * t * t * t + b
  else let t := t - 2 in - c / 2 * (t * t * t * t - 2) + b.

Definition easeInQuint_fn (t b c d : Q) : Q :=
  let t := t / d in c * t * t * t * t * t + b.

Definition easeOutQuint_fn (t b c d : Q) : Q :=
  let t := t / d - 1 in c * (t * t * t * t * t + 1) + b.

Definition easeInOutQuint_fn (t b c d : Q) : Q :=
  let t := t / (d / 2) in
  if num_lt t 1 then c / 2 * t * t * t * t * t + b
  else let t := t - 2 in c / 2 * (t * t * t * t * t + 2) + b.

Definition easeInSine_fn (t b c d : Q) : Q :=
  - c * Math_cos h (t / d * (Math_PI h / 2)) + c + b.

Definition easeOutSine_fn (t b c d : Q) : Q :=
  c * Math_sin h (t / d * (Math_PI h / 2)) + b.

Definition easeInOutSine_fn (t b c d : Q) : Q :=
  - c / 2 * (Math_cos h (Math_PI h * t / d) - 1) + b.

Definition easeInExpo_fn (t b c d : Q) : Q :=
  if Qeq_bool t 0 then b
  else c * Math_pow h 2 (10 * (t / d - 1)) + b.

Definition easeOutExpo_fn (t b c d : Q) : Q :=
  if Qeq_bool t d then b + c
  else c * (- Math_pow h 2 (-10 * t / d) + 1) + b.

Definition easeInOutExpo_fn (t b c d : Q) : Q :=
  if Qeq_bool t 0 then b
  else if Qeq_bool t d then b + c
  else
    let t := t / (d / 2) in
    if num_lt t 1 then c / 2 * Math_pow h 2 (10 * (t - 1)) + b
    else let t := t - 1 in c / 2 * (- Math_pow h 2 (-10 * t) + 2) + b.

Definition easeInCirc_fn (t b c d : Q) : Q :=
  let t := t / d in - c * (Math_sqrt h (1 - t * t) - 1) + b.

Definition easeOutCirc_fn (t b c d : Q) : Q :=
  let t := t / d - 1 in c * Math_sqrt h (1 - t * t) + b.

Definition easeInOutCirc_fn (t b c d : Q) : Q :=
  let t := t / (d / 2) in
  if num_lt t 1 then - c / 2 * (Math_sqrt h (1 - t * t) - 1) + b
  else let t := t - 2 in c / 2 * (Math_sqrt h (1 - t * t) + 1) + b.

(** The three elastic functions start from [s=1.70158; p=0; a=c]; [!p]
    holds where it is tested, so [p] is always assigned; [s] is assigned
    on both branches of the test on [a]. *)
Definition elastic_s (c p : Q) : Q :=
  let a := c in
  if num_lt a (Qabs c) then p / 4
  else p / (2 * Math_PI h) * Math_asin h (c / a).

Definition easeInElastic_fn (t b c d : Q) : Q :=
  let a := c in
  if Qeq_bool t 0 then b
  else
    let t := t / d in
    if Qeq_bool t 1 then b + c
    else
      let p := d * 0.3 in
      let s := elastic_s c p in
      let t := t - 1 in
      - (a * Math_pow h 2 (10 * t)
         * Math_sin h ((t * d - s) * (2 * Math_PI h) / p)) + b.

Definition easeOutElastic_fn (t b c d : Q) : Q :=
  let a := c in
  if Qeq_bool t 0 then b
  else
    let t := t / d in
    if Qeq_bool t 1 then b + c
    else
      let p := d * 0.3 in
      let s := elastic_s c p in
      a * Math_pow h 2 (-10 * t)
      * Math_sin h ((t * d - s) * (2 * Math_PI h) / p) + c + b.

Definition easeInOutElastic_fn (t b c d : Q) : Q :=
  let a := c in
  if Qeq_bool t 0 then b
  else
    let t := t / (d / 2) in
    if Qeq_bool t 2 then b + c
    else
      let p := d * (0.3 * 1.5) in
      let s := elastic_s c p in
      if num_lt t 1 then
        let t := t - 1 in
        - 0.5 * (a * Math_pow h 2 (10 * t)
                 * Math_sin h ((t * d - s) * (2 * Math_PI h) / p)) + b
      else
        let t := t - 1 in
        a * Math_pow h 2 (-10 * t)
        * Math_sin h ((t * d - s) * (2 * Math_PI h) / p) * 0.5 + c + b.

(** The back functions are called with five arguments, so [s] is
    [undefined] on entry and becomes [1.70158]. *)
Definition easeInBack_fn (t b c d : Q) : Q :=
  let s := 1.70158 in
  let t := t / d in c * t * t * ((s + 1) * t - s) + b.

Definition easeOutBack_fn (t b c d : Q) : Q :=
  let s := 1.70158 in
  let t := t / d - 1 in c * (t * t * ((s + 1) * t + s) + 1) + b.

Definition easeInOutBack_fn (t b c d : Q) : Q :=
  let s := 1.70158 in
  let t := t / (d / 2) in
  if num_lt t 1 then
    let s := s * 1.525 in c / 2 * (t * t * ((s + 1) * t - s)) + b
  else
    let t := t - 2 in
    let s := s * 1.525 in c / 2 * (t * t * ((s + 1) * t + s) + 2) + b.

Definition easeOutBounce_fn (t b c d : Q) : Q :=
  let t := t / d in
  if num_lt t (1 / 2.75) then c * (7.5625 * t * t) + b
  else if num_lt t (2 / 2.75) then
    let t := t - 1.5 / 2.75 in c * (7.5625 * t * t + 0.75) + b
  else if num_lt t (2.5 / 2.75) then
    let t := t - 2.25 / 2.75 in c * (7.5625 * t * t + 0.9375) + b
  else
    let t := t - 2.625 / 2.75 in c * (7.5625 * t * t + 0.984375) + b.

Definition easeInBounce_fn (t b c d : Q) : Q :=
  c - easeOutBounce_fn (d - t) 0 c d + b.

Definition easeInOutBounce_fn (t b c d : Q) : Q :=
  if num_lt t (d / 2) then easeInBounce_fn (t * 2) 0 c d * 0.5 + b
  else easeOutBounce_fn (t * 2 - d) 0 c d * 0.5 + c * 0.5 + b.

Definition Easing_fn (e : EasingName) : Q -> Q -> Q -> Q -> Q :=
  match e with
  | easeInQuad => easeInQuad_fn
  | easeOutQuad => easeOutQuad_fn
  | easeInOutQuad => easeInOutQuad_fn
  | easeInCubic => easeInCubic_fn
  | easeOutCubic => easeOutCubic_fn
  | easeInOutCubic => easeInOutCubic_fn
  | easeInQuart => easeInQuart_fn
  | easeOutQuart => easeOutQuart_fn
  | easeInOutQuart => easeInOutQuart_fn
  | easeInQuint => easeInQuint_fn
  | easeOutQuint => easeOutQuint_fn
  | easeInOutQuint => easeInOutQuint_fn
  | easeInSine => easeInSine_fn
  | easeOutSine => easeOutSine_fn
  | easeInOutSine => easeInOutSine_fn
  | easeInExpo => easeInExpo_fn
  | easeOutExpo => easeOutExpo_fn
  | easeInOutExpo => easeInOutExpo_fn
  | easeInCirc => easeInCirc_fn
  | easeOutCirc => easeOutCirc_fn
  | easeInOutCirc => easeInOutCirc_fn
  | easeInElastic => easeInElastic_fn
  | easeOutElastic => easeOutElastic_fn
  | easeInOutElastic => easeInOutElastic_fn
  | easeInBack => easeInBack_fn
  | easeOutBack => easeOutBack_fn
  | easeInOutBack => easeInOutBack_fn
  | easeInBounce => easeInBounce_fn
  | easeOutBounce => easeOutBounce_fn
  | easeInOutBounce => easeInOutBounce_fn
  end.
End Easing.

(** ** Animation tasks *)

(** The object literal [Primitive.prototype.animate] pushes.  Its [update]
    method is the same function for every task ([Animation.update] below);
    [easing] is a reference to an entry of the easing table. *)
Module Animation.

Record t := {
  frame : Z;
  length : Z;
  callback : option fnref;
  property : string;
  initialValue : Q;
  range : Q;
  easing : EasingName
}.

(** [animation.frame--] *)
Definition decrement (a : t) : t :=
  {| frame := (frame a - 1)%Z;
     length := length a;
     callback := callback a;
     property := property a;
     initialValue := initialValue a;
     range := range a;
     easing := easing a |}.

(** [update: function(frame, prop, value) { this[prop] = value; }] *)
Definition update (this : Props) (prop : string) (value : Q) : Props :=
  <[prop := VNum value]> this.

End Animation.

(** ** Primitives *)

(** The [obj] argument of [Aristochart.Primitive].  [isInside] answers by
    the truth of what the caller's function returns. *)
Record PrimitiveObj := {
  render : option fnref;
  isInside : option (Props -> option Q -> option Q -> bool);
  getBoundingBox : option fnref;
  init : option fnref;
  events : option (list (string * fnref))
}.

(** What [Aristochart.Primitive(style, obj, canvas, ctx)] returns: the
    constructor, a closure over its four arguments. *)
Record PrimitiveClass := {
  style : option Props;
  obj : PrimitiveObj;
  canvas : value;
  ctx : value
}.

(** An instance.  [props] holds its own properties other than the
    animation queue and [events]: those the constructor sets, those
    [data] and the style bring, those [animate] writes, and the hover flag
    [_mouseover] of the dispatcher, which is a property like the others
    and is there from the start if [data] or the style name it. *)
Record Primitive := {
  class : PrimitiveClass;
  props : Props;
  animationBuffer : list Animation.t
}.

#[global] Instance Primitive_inhabited : Inhabited Primitive :=
  populate
    {| class := {| style := None;
                   obj := {| render := None; isInside := None;
                             getBoundingBox := None; init := None;
                             events := None |};
                   canvas := VUndef; ctx := VUndef |};
       props := ∅; animationBuffer := [] |}.

(** [this.events = obj.events || {}] *)
Definition events_of (p : Primitive) : list (string * fnref) :=
  default [] (events (obj (class p))).

Definition present {A} (o : option A) : bool :=
  match o with
  | Some _ => true
  | None => false
  end.

Definition mem (x : string) (l : list string) : bool :=
  existsb (String.eqb x) l.

(** Names that resolve to an object on every instance: its own
    object-valued fields, the methods of its prototype, and what every
    object inherits. *)
Definition object_names : list string :=
  [ "animationBuffer"; "events";
    "drawBoundingBox"; "animate"; "transition"; "update"; "render" ]
  ++ Object_prototype_names.

(** [this[prop]] *)
Definition get_prop (this : Primitive) (prop : string) : value :=
  match props this !! prop with
  | Some v => v
  | None =>
      if mem prop object_names then VObj
      else if String.eqb prop "isInside" then
        if present (isInside (obj (class this))) then VObj else VUndef
      else if String.eqb prop "getBoundingBox" then
        if present (getBoundingBox (obj (class this))) then VObj else VUndef
      else VUndef
  end.

Definition set_props (this : Primitive) (ps : Props) : Primitive :=
  {| class := class this; props := ps;
     animationBuffer := animationBuffer this |}.

Definition set_animationBuffer (this : Primitive) (b : list Animation.t)
  : Primitive :=
  {| class := class this; props := props this;
     animationBuffer := b |}.

(** [this._mouseover = b] *)
Definition set_mouseover (this : Primitive) (b : bool) : Primitive :=
  set_props this (<["_mouseover" := VBool b]> (props this)).

(** ** The calls made into the caller's code *)

Inductive Site :=
| OnInit
| OnRender
| OnComplete
| OnEvent (name : string).

Record Call := {
  call_site : Site;
  call_this : ref;
  call_fn : fnref
}.

(** What is shared by all objects: the [called] flag that
    [Primitive.prototype.update] sets on callback functions, and the trace
    of the calls made so far. *)
Record World := {
  called : gset fnref;
  calls : list Call
}.

(** The state a method of a primitive runs in. *)
Record Self := {
  this : Primitive;
  world : World
}.

Definition with_this (f : Primitive -> Primitive) : M Self unit :=
  modify (fun s => {| this := f (this s); world := world s |}).

(** [f.call(this)]: the call is traced, the function does what it does to
    the properties of [this], and throws if it is one that throws. *)
Definition invoke (g : Globals) (site : Site) (r : ref) (f : fnref)
  : M Self unit :=
  fun s =>
    let s' :=
      {| this := set_props (this s) (fn_effect (code g f) (props (this s)));
         world := {| called := called (world s);
                     calls := calls (world s)
                              ++ [ {| call_site := site; call_this := r;
                                      call_fn := f |} ] |} |} in
    if fn_raises (code g f) then Raise (Thrown f) s' else Ret tt s'.

(** [f.called = true] *)
Definition mark_called (f : fnref) : M Self unit :=
  modify (fun s =>
    {| this := this s;
       world := {| called := {[ f ]} ∪ called (world s);
                   calls := calls (world s) |} |}).

(** *** [Aristochart.Primitive] *)

Definition Aristochart_Primitive {S} (g : Globals) (style : option Props)
    (obj : PrimitiveObj) (canvas ctx : value) : M S PrimitiveClass :=
  (if negb (present (render obj)) then
     Aristochart_Error g
       "Aristochart.Primitive: Forgot to supply a render function when creating a primitive."
   else ret tt) ;;
  (if present (events obj) && negb (present (isInside obj)) then
     Aristochart_Error g
       "Aristochart.Primitive: Event object supplied but no isInside function supplied."
   else ret tt) ;;
  ret {| style := style; obj := obj; canvas := canvas; ctx := ctx |}.

(** *** The constructor [new Primitive(data)] *)

(** [Aristochart._deepMerge(options, defaults)] on dictionaries of the
    model's values, which have no inner structure: every own key of
    [options] is written over [defaults].  [data] and [style] are such
    dictionaries, and name none of [object_names]. *)
Definition _deepMerge (options defaults : Props) : Props :=
  options ∪ defaults.

(** [Object.keys(events)[0]] *)
Definition first_key (events : list (string * fnref)) : value :=
  match events with
  | [] => VUndef
  | (k, _) :: _ => VStr k
  end.

Definition Primitive_new (g : Globals) (cls : PrimitiveClass) (r : ref)
    (data : option Props) : M World Primitive :=
  fun w =>
    let this0 : Props :=
      <["canvas" := canvas cls]> (<["ctx" := ctx cls]> (
      <["scale" := VNum 1]> (<["rotation" := VNum 0]> (<["alpha" := VNum 1]> (
      <["mouseEnabled" := VBool true]> (<["static" := VBool false]> (
      <["visible" := VBool true]> (<["index" := VNum 0]> ∅)))))))) in
    let evs := default [] (events (obj cls)) in
    let this1 :=
      if negb (truthy (first_key evs))
      then <["mouseEnabled" := VBool false]> this0 else this0 in
    let this2 :=
      match data with
      | Some d => _deepMerge d this1
      | None => this1
      end in
    let construct : M Self unit :=
      (match init (obj cls) with
       | Some f => invoke g OnInit r f
       | None => ret tt
       end) ;;
      (match style cls with
       | Some st => with_this (fun p => set_props p (_deepMerge st (props p)))
       | None => ret tt
       end) in
    match construct {| this := {| class := cls; props := this2;
                                  animationBuffer := [] |};
                       world := w |} with
    | Ret _ s => Ret (this s) (world s)
    | Raise e s => Raise e (world s)
    end.

(** *** [Primitive.prototype.animate] *)

(** The third argument as the caller may pass it: nothing, a function, or
    (the three-argument form) the easing name. *)
Inductive CallbackArg :=
| NoCallback
| Fn (f : fnref)
| Str (s : string).

(** The variable [easing] after the first line of [animate]: [undefined],
    a string, or the object [new String(callback)]. *)
Inductive EasingArg :=
| NoEasing
| Name (s : string)
| Wrapped (s : string).

Definition easing_of (callback : CallbackArg) (easing : option string)
  : EasingArg :=
  match callback with
  | Str s => Wrapped s
  | _ => match easing with
         | Some s => Name s
         | None => NoEasing
         end
  end.

Definition callback_of (callback : CallbackArg) : option fnref :=
  match callback with
  | Fn f => Some f
  | _ => None
  end.

Definition easing_truthy (e : EasingArg) : bool :=
  match e with
  | NoEasing => false
  | Name s => negb (String.eqb s "")
  | Wrapped _ => true
  end.

(** The property key [easing] is turned into by [Aristochart.Easing[easing]] *)
Definition easing_key (e : EasingArg) : string :=
  match e with
  | NoEasing => "undefined"
  | Name s | Wrapped s => s
  end.

(** [Aristochart.Easing[easing] || Aristochart.Easing.easeInQuad] *)
Definition easing_or_default (e : EasingArg) : EasingName :=
  default easeInQuad (Easing (easing_key e)).

Definition task (prop : string) (current property : Q)
    (frames : Z) (callback : option fnref) (e : EasingArg) : Animation.t :=
  {| Animation.frame := frames;
     Animation.length := frames;
     Animation.callback := callback;
     Animation.property := prop;
     Animation.initialValue := current;
     Animation.range := property - current;
     Animation.easing := easing_or_default e |}.

Definition push_task (a : Animation.t) : M Self unit :=
  with_this (fun p => set_animationBuffer p (animationBuffer p ++ [a])).

(** The [for (var prop in properties)] loop; [properties] lists the
    entries in the order the loop meets them, and its targets are
    numbers. *)
Fixpoint animate_loop (g : Globals) (properties : list (string * Q))
    (frames : Z) (callback : option fnref) (e : EasingArg) : M Self unit :=
  match properties with
  | [] => ret tt
  | (prop, property) :: rest =>
      s <- get ;;
      match get_prop (this s) prop with
      | VUndef | VNull =>
          Aristochart_Error g
            ("Primitive#Animate: Property '" +:+ prop +:+ "' does not exist.") ;;
          animate_loop g rest frames callback e
      | VNum current =>
          push_task (task prop current property frames callback e) ;;
          animate_loop g rest frames callback e
      | _ =>
          Aristochart_Error g
            ("Primitive#Animate: Property '" +:+ prop
             +:+ "' is not a number and is unanimatable") ;;
          animate_loop g rest frames callback e
      end
  end.

Definition Primitive_animate (g : Globals) (properties : list (string * Q))
    (frames : Z) (callback : CallbackArg) (easing : option string)
  : M Self unit :=
  let e := easing_of callback easing in
  let callback := callback_of callback in
  (if easing_truthy e && negb (present (Easing (easing_key e))) then
     Aristochart_Error g
       ("Easing function '" +:+ easing_key e
        +:+ "' does not exist. See Aristochart.Easing for a list of supported easing functions.")
   else ret tt) ;;
  animate_loop g properties frames callback e.

(** *** [Primitive.prototype.update] *)

(** [animation.frame--] on the task at index [i] of the array that
    [this.animationBuffer] still names while the loop runs. *)
Definition store_task (i : nat) (a : Animation.t) : M Self unit :=
  with_this (fun p => set_animationBuffer p (<[i := a]> (animationBuffer p))).

(** One task of the loop; the result is what the task adds to
    [newBuffer]. *)
Definition update_task (g : Globals) (r : ref) (i : nat)
    (animation : Animation.t) : M Self (list Animation.t) :=
  if negb (Z.eqb (Animation.frame animation) 0) then
    let value :=
      Easing_fn (host g) (Animation.easing animation)
        (inject_Z (Animation.length animation - Animation.frame animation + 1))
        0
        (Animation.range animation)
        (inject_Z (Animation.length animation)) in
    with_this (fun p =>
      set_props p
        (Animation.update (props p) (Animation.property animation)
           (Animation.initialValue animation + value))) ;;
    store_task i (Animation.decrement animation) ;;
    ret [Animation.decrement animation]
  else
    match Animation.callback animation with
    | Some f =>
        s <- get ;;
        if bool_decide (f ∈ called (world s)) then ret []
        else invoke g OnComplete r f ;; mark_called f ;; ret []
    | None => ret []
    end.

(** The loop over the queue, from index [i] on; the result is [newBuffer]. *)
Fixpoint update_tasks (g : Globals) (r : ref) (i : nat)
    (todo : list Animation.t) : M Self (list Animation.t) :=
  match todo with
  | [] => ret []
  | animation :: rest =>
      kept <- update_task g r i animation ;;
      more <- update_tasks g r (S i) rest ;;
      ret (kept ++ more)
  end.

Definition Primitive_update (g : Globals) (r : ref) : M Self unit :=
  s <- get ;;
  match animationBuffer (this s) with
  | [] => ret tt
  | animationBuffer =>
      newBuffer <- update_tasks g r 0 animationBuffer ;;
      with_this (fun p => set_animationBuffer p newBuffer)
  end.

(** *** [Primitive.prototype.render] *)

(** The drawing itself is the host's; what is kept of it is that
    [this.ctx] has to be an object for [this.ctx.save()] to be a call, and
    that [obj.render] is called between [save] and [restore]. *)
Definition Primitive_render (g : Globals) (r : ref) : M Self unit :=
  s <- get ;;
  match get_prop (this s) "ctx" with
  | VObj =>
      match render (obj (class (this s))) with
      | Some f => invoke g OnRender r f
      | None => raise (TypeError "obj.render is undefined")
      end
  | _ => raise (TypeError "this.ctx.save is not a function")
  end.

(** ** The chart *)

(** The store of instances, what they share, and the fields of the
    [Aristochart] instance, its registry and its engine that the core
    reads or writes.  [requested] counts the calls of [requestAnimFrame]
    the host has not served yet. *)
Record Chart := {
  objects : gmap ref Primitive;
  shared : World;
  registry : list ref;
  mouseBuffer : list ref;
  mouseX : Q;
  mouseY : Q;
  _mouseX : Q;
  _mouseY : Q;
  running : bool;
  requested : nat
}.

Definition set_objects (c : Chart) (o : gmap ref Primitive) (w : World)
  : Chart :=
  {| objects := o; shared := w; registry := registry c;
     mouseBuffer := mouseBuffer c; mouseX := mouseX c; mouseY := mouseY c;
     _mouseX := _mouseX c; _mouseY := _mouseY c; running := running c;
     requested := requested c |}.

Definition set_registry (c : Chart) (l : list ref) : Chart :=
  {| objects := objects c; shared := shared c; registry := l;
     mouseBuffer := mouseBuffer c; mouseX := mouseX c; mouseY := mouseY c;
     _mouseX := _mouseX c; _mouseY := _mouseY c; running := running c;
     requested := requested c |}.

Definition set_mouseBuffer (c : Chart) (l : list ref) : Chart :=
  {| objects := objects c; shared := shared c; registry := registry c;
     mouseBuffer := l; mouseX := mouseX c; mouseY := mouseY c;
     _mouseX := _mouseX c; _mouseY := _mouseY c; running := running c;
     requested := requested c |}.

Definition set_mouse (c : Chart) (x y : Q) : Chart :=
  {| objects := objects c; shared := shared c; registry := registry c;
     mouseBuffer := mouseBuffer c; mouseX := x; mouseY := y;
     _mouseX := _mouseX c; _mouseY := _mouseY c; running := running c;
     requested := requested c |}.

Definition set_checked (c : Chart) (x y : Q) : Chart :=
  {| objects := objects c; shared := shared c; registry := registry c;
     mouseBuffer := mouseBuffer c; mouseX := mouseX c; mouseY := mouseY c;
     _mouseX := x; _mouseY := y; running := running c;
     requested := requested c |}.

Definition set_running (c : Chart) (b : bool) : Chart :=
  {| objects := objects c; shared := shared c; registry := registry c;
     mouseBuffer := mouseBuffer c; mouseX := mouseX c; mouseY := mouseY c;
     _mouseX := _mouseX c; _mouseY := _mouseY c; running := b;
     requested := requested c |}.

Definition set_requested (c : Chart) (n : nat) : Chart :=
  {| objects := objects c; shared := shared c; registry := registry c;
     mouseBuffer := mouseBuffer c; mouseX := mouseX c; mouseY := mouseY c;
     _mouseX := _mouseX c; _mouseY := _mouseY c; running := running c;
     requested := n |}.

(** A method of the object [r] names, run in the chart: the object is read
    from the store and what the method leaves of it is written back, also
    when the method throws. *)
Definition on_object {A} (r : ref) (m : M Self A) : M Chart A :=
  fun c =>
    match m {| this := objects c !!! r; world := shared c |} with
    | Ret a s => Ret a (set_objects c (<[r := this s]> (objects c)) (world s))
    | Raise e s => Raise e (set_objects c (<[r := this s]> (objects c)) (world s))
    end.

(** No step of a loop below changes the array the loop runs over, so each
    loop is a recursion over the array as it is when the loop starts. *)
Fixpoint for_each {S A} (l : list A) (body : A -> M S unit) : M S unit :=
  match l with
  | [] => ret tt
  | x :: rest => body x ;; for_each rest body
  end.

(** ** [Aristochart.Registry] *)

(** [l.indexOf(x)] *)
Fixpoint indexOf_from (l : list ref) (x : ref) (i : Z) : Z :=
  match l with
  | [] => (-1)%Z
  | y :: rest => if Nat.eqb y x then i else indexOf_from rest x (i + 1)%Z
  end.

Definition indexOf (l : list ref) (x : ref) : Z := indexOf_from l x 0%Z.

(** [l.splice(start, 1)], for what it leaves in [l]: a negative [start]
    counts from the end. *)
Definition splice1 {A} (l : list A) (start : Z) : list A :=
  let len := Z.of_nat (length l) in
  let from := if (start <? 0)%Z then Z.max (len + start) 0 else Z.min start len in
  take (Z.to_nat from) l ++ drop (S (Z.to_nat from)) l.

(** [x - v] for a number [x] and any value [v] *)
Definition minus (g : Globals) (x : Q) (v : value) : option Q :=
  match v with
  | VNum q => Some (x - q)
  | VUndef => None
  | VNull => Some (x - 0)
  | VBool b => Some (x - (if b then 1 else 0))
  | VStr _ | VObj => (fun q => x - q) <$> ToNumber (host g) v
  end.

Fixpoint objectsUnder_loop (g : Globals) (c : Chart) (x y : Q)
    (todo objectsUnder : list ref) : Res Chart (list ref) :=
  match todo with
  | [] => Ret objectsUnder c
  | primitive :: rest =>
      let p := objects c !!! primitive in
      match isInside (obj (class p)) with
      | None => Raise (TypeError "primitive.isInside is not a function") c
      | Some inside =>
          if inside (props p) (minus g x (get_prop p "x"))
                              (minus g y (get_prop p "y"))
          then objectsUnder_loop g c x y rest (objectsUnder ++ [primitive])
          else objectsUnder_loop g c x y rest objectsUnder
      end
  end.

Definition Registry_objectsUnder (g : Globals) (x y : Q)
  : M Chart (list ref) :=
  fun c => objectsUnder_loop g c x y (registry c) [].

(** [add] takes one primitive or an array of primitives. *)
Definition Registry_add (primitive : ref + list ref) : M Chart unit :=
  modify (fun c =>
    match primitive with
    | inr l => set_registry c (registry c ++ l)
    | inl r => set_registry c (registry c ++ [r])
    end).

Definition Registry_remove (obj : ref) : M Chart unit :=
  modify (fun c =>
    set_registry c (splice1 (registry c) (indexOf (registry c) obj))).

(** [update] and [render] run from the last index down to [0]. *)
Definition Registry_update (g : Globals) : M Chart unit :=
  c <- get ;;
  for_each (rev (registry c)) (fun r => on_object r (Primitive_update g r)).

Definition Registry_render (g : Globals) : M Chart unit :=
  c <- get ;;
  for_each (rev (registry c)) (fun r => on_object r (Primitive_render g r)).

(** ** The pointer dispatcher *)

(** [if (primitive.events.name) primitive.events.name.call(primitive)] *)
Definition fire (g : Globals) (name : string) (primitive : ref)
  : M Chart unit :=
  c <- get ;;
  match assoc (events_of (objects c !!! primitive)) name with
  | Some f => on_object primitive (invoke g (OnEvent name) primitive f)
  | None => ret tt
  end.

(** [primitive._mouseover], as the test [!primitive._mouseover] reads
    it. *)
Definition hovered (c : Chart) (primitive : ref) : bool :=
  truthy (get_prop (objects c !!! primitive) "_mouseover").

Definition flag (primitive : ref) (b : bool) : M Chart unit :=
  on_object primitive (with_this (fun p => set_mouseover p b)).

(** The first loop of [Aristochart.prototype.update], over [current]. *)
Definition hover_enter (g : Globals) (primitive : ref) : M Chart unit :=
  c <- get ;;
  if negb (hovered c primitive) then
    fire g "mouseover" primitive ;;
    flag primitive true ;;
    modify (fun c => set_mouseBuffer c (mouseBuffer c ++ [primitive]))
  else
    fire g "mousemove" primitive.

(** The second loop, over the buffer; the result is [_buffer]. *)
Fixpoint hover_leave (g : Globals) (current todo _buffer : list ref)
  : M Chart (list ref) :=
  match todo with
  | [] => ret _buffer
  | primitive :: rest =>
      if Z.eqb (indexOf current primitive) (-1) then
        fire g "mouseout" primitive ;;
        flag primitive false ;;
        hover_leave g current rest _buffer
      else
        hover_leave g current rest (_buffer ++ [primitive])
  end.

(** The body of the throttle test. *)
Definition dispatch_hover (g : Globals) : M Chart unit :=
  c <- get ;;
  current <- Registry_objectsUnder g (mouseX c) (mouseY c) ;;
  for_each current (hover_enter g) ;;
  c1 <- get ;;
  _buffer <- hover_leave g current (mouseBuffer c1) [] ;;
  modify (fun c => set_mouseBuffer c _buffer) ;;
  modify (fun c => set_checked c (mouseX c) (mouseY c)).

Definition moved (c : Chart) : bool :=
  negb (Qeq_bool (mouseX c) (_mouseX c))
  || negb (Qeq_bool (mouseY c) (_mouseY c)).

Definition Aristochart_update (g : Globals) : M Chart unit :=
  c <- get ;;
  (if moved c then dispatch_hover g else ret tt) ;;
  Registry_update g.

Definition Aristochart_render (g : Globals) : M Chart unit :=
  Registry_render g.

(** The listeners the constructor binds on the container. *)
Definition on_click (g : Globals) (offsetX offsetY : Q) : M Chart unit :=
  current <- Registry_objectsUnder g offsetX offsetY ;;
  for_each current (fire g "click").

Definition on_mousemove (offsetX offsetY : Q) : M Chart unit :=
  modify (fun c => set_mouse c offsetX offsetY).

(** ** [Aristochart.Engine] *)

(** [requestAnimFrame(tick)] *)
Definition requestAnimFrame : M Chart unit :=
  modify (fun c => set_requested c (S (requested c))).

Definition tick (g : Globals) : M Chart unit :=
  c <- get ;;
  if running c then
    requestAnimFrame ;;
    Aristochart_update g ;;
    Aristochart_render g
  else ret tt.

Definition Engine_start (g : Globals) : M Chart unit :=
  modify (fun c => set_running c true) ;;
  tick g.

Definition Engine_stop : M Chart unit :=
  modify (fun c => set_running c false).

(** ** [Aristochart.Data.prototype.validateData] *)

(** [raw] is the data object by its own properties.  The host's [Object]
    has [keys] and no [key], so the test of the pie case is a call of
    [undefined]. *)
Definition validateData {S} (g : Globals) (context : string) (raw : Props)
  : M S unit :=
  if String.eqb context "line" then
    if negb (truthy (default VUndef (raw !! "x")))
       || negb (truthy (default VUndef (raw !! "y")))
    then Aristochart_Error g
           "Invalid line data. Please specify an X property and y property and optional y1, y2, yn etc. properties."
    else ret tt
  else if String.eqb context "pie" then
    raise (TypeError "Object.key is not a function")
  else ret tt.

(** ** [Aristochart.Data]: [getBounds], [getPoints], [sanitize.line], [refresh] *)

(** A property of the raw data object: an array of numbers, or a value
    that is no array.  Among these values [VObj] is an object that has no
    [length] and no indexed property, such as the [{fn, start, stop}] the
    source's comment allows for [y]. *)
Inductive Datum :=
| DArray (l : list Q)
| DValue (v : value).

(** The raw data object, as the entries a [for ... in] loop meets. *)
Definition RawData := list (string * Datum).

(** [raw[key]] *)
Definition datum (raw : RawData) (key : string) : Datum :=
  default (DValue VUndef) (assoc raw key).

(** The raw data as [validateData] reads it, an array being an object. *)
Definition raw_props (raw : RawData) : Props :=
  list_to_map
    (map (fun entry =>
            (fst entry,
             match snd entry with
             | DArray _ => VObj
             | DValue v => v
             end))
       raw).

(** A number that may be infinite, or no number at all. *)
Inductive Bound :=
| MinusInfinity
| Finite (q : Q)
| PlusInfinity
| NotANumber.

(** [a < b] on numbers *)
Definition Bound_lt (a b : Bound) : bool :=
  match a, b with
  | NotANumber, _ | _, NotANumber => false
  | PlusInfinity, _ | _, MinusInfinity => false
  | MinusInfinity, _ | _, PlusInfinity => true
  | Finite x, Finite y => num_lt x y
  end.

(** [a - b] on numbers *)
Definition Bound_minus (a b : Bound) : Bound :=
  match a, b with
  | NotANumber, _ | _, NotANumber => NotANumber
  | Finite x, Finite y => Finite (x - y)
  | Finite _, MinusInfinity => PlusInfinity
  | Finite _, PlusInfinity => MinusInfinity
  | PlusInfinity, PlusInfinity => NotANumber
  | PlusInfinity, _ => PlusInfinity
  | MinusInfinity, MinusInfinity => NotANumber
  | MinusInfinity, _ => MinusInfinity
  end.

(** What an element [data[i]] of a line is, and so what [max] and [min]
    come to hold: a number or, where the line is a string, a string of one
    character. *)
Inductive Item :=
| Num (b : Bound)
| Chr (c : Ascii.ascii).

(** The number an item converts to, for [<], [>] and [-]. *)
Definition to_number (h : Host) (v : Item) : Bound :=
  match v with
  | Num b => b
  | Chr c =>
      match ToNumber h (VStr (String c EmptyString)) with
      | Some q => Finite q
      | None => NotANumber
      end
  end.

(** [a < b]: two strings compare by their characters, anything else
    compares as numbers.  [a > b] is [Item_lt h b a]. *)
Definition Item_lt (h : Host) (a b : Item) : bool :=
  match a, b with
  | Chr x, Chr y => Nat.ltb (Ascii.nat_of_ascii x) (Ascii.nat_of_ascii y)
  | _, _ => Bound_lt (to_number h a) (to_number h b)
  end.

(** The elements [data[0]], ..., [data[data.length - 1]] of a line.  For
    [null] and [undefined] reading [length] is a [TypeError], which is
    [None]; a number, a boolean and an object of the model have no
    [length], and [i < undefined] ends the loop at once. *)
Definition items (data : Datum) : option (list Item) :=
  match data with
  | DArray l => Some (map (fun q => Num (Finite q)) l)
  | DValue (VStr s) => Some (map Chr (String.list_ascii_of_string s))
  | DValue VUndef | DValue VNull => None
  | DValue (VBool _) | DValue (VNum _) | DValue VObj => Some []
  end.

Module Bounds.

Record t := {
  max : Item;
  min : Item;
  range : Bound
}.

End Bounds.

(** The inner loop of [getBounds], over the elements of one line. *)
Fixpoint bounds_of_items (h : Host) (data : list Item) (max min : Item)
  : Item * Item :=
  match data with
  | [] => (max, min)
  | value :: rest =>
      let max := if Item_lt h max value then value else max in
      let min := if Item_lt h value min then value else min in
      bounds_of_items h rest max min
  end.

(** The outer loop, over the lines; [None] is the [TypeError] of
    [data.length] at a line that is [null] or [undefined]. *)
Fixpoint bounds_of_lines (h : Host) (lines : RawData) (max min : Item)
  : option (Item * Item) :=
  match lines with
  | [] => Some (max, min)
  | (line, data) :: rest =>
      if String.eqb line "x" then bounds_of_lines h rest max min
      else
        match items data with
        | Some values =>
            let (max, min) := bounds_of_items h values max min in
            bounds_of_lines h rest max min
        | None => None
        end
  end.

(** [["line"].indexOf(this.context) == -1] is
    [negb (String.eqb context "line")]. *)
Definition getBounds {S} (g : Globals) (context : string) (raw : RawData)
  : M S Bounds.t :=
  (if negb (String.eqb context "line") then
     Aristochart_Error g "Aristochart.Data#getBounds only works on line charts."
   else ret tt) ;;
  match bounds_of_lines (host g) raw (Num MinusInfinity) (Num PlusInfinity) with
  | Some (max, min) =>
      ret {| Bounds.max := max; Bounds.min := min;
             Bounds.range := Bound_minus (to_number (host g) max)
                               (to_number (host g) min) |}
  | None => raise (TypeError "Cannot read property 'length' of undefined")
  end.

(** [this.x], as [sanitize.line] sets it; a field is [None] where it
    holds no number ([undefined] or [NaN]). *)
Record XRange := {
  x_min : option Q;
  x_max : option Q;
  x_range : option Q
}.

Record Point := {
  point_x : option Q;
  point_y : Item
}.

(** The point [{x: (this.x.range / (length - 1)) * i, y: arr[i]}];
    [x] is no number where [range] is none or [length] is [1]. *)
Definition point_at (range : option Q) (length : nat) (i : nat) (y : Item)
  : Point :=
  {| point_x :=
       match range with
       | Some range =>
           if Nat.eqb length 1 then None
           else Some (range / inject_Z (Z.of_nat length - 1)
                      * inject_Z (Z.of_nat i))
       | None => None
       end;
     point_y := y |}.

Definition points_of (range : option Q) (arr : list Item) : list Point :=
  imap (point_at range (length arr)) arr.

(** The loop of [getPoints] over the lines, [output] being what it has
    built so far.  At a line that is [null] or [undefined], [arr.length]
    is a [TypeError]; [x] is [this.x], which is [undefined] until
    [sanitize.line] has set it, and then [this.x.range] is a [TypeError]
    at the first line that has an element. *)
Fixpoint points_of_lines {S} (x : option XRange) (raw : RawData)
    (output : list (string * list Point))
  : M S (list (string * list Point)) :=
  match raw with
  | [] => ret output
  | (y, data) :: rest =>
      if String.eqb y "x" then points_of_lines x rest output
      else
        match items data with
        | None => raise (TypeError "Cannot read property 'length' of undefined")
        | Some [] => points_of_lines x rest (output ++ [(y, [])])
        | Some arr =>
            match x with
            | Some this_x =>
                points_of_lines x rest
                  (output ++ [(y, points_of (x_range this_x) arr)])
            | None =>
                raise (TypeError "Cannot read property 'range' of undefined")
            end
        end
  end.

Definition getPoints {S} (x : option XRange) (raw : RawData)
  : M S (list (string * list Point)) :=
  points_of_lines x raw [].

(** The data object. *)
Record Data := {
  data_raw : RawData;
  data_context : string;
  data_x : option XRange;
  data_y : option Bounds.t
}.

(** The first part of [sanitize.line]: [x] from [data.x]. *)
Definition sanitize_x (g : Globals) (data : RawData) : M Data (option XRange) :=
  match datum data "x" with
  | DValue (VNum q) =>
      ret (Some {| x_min := Some 0; x_max := Some q; x_range := Some q |})
  | DArray [q] =>
      ret (Some {| x_min := Some 0; x_max := Some q; x_range := Some q |})
  | DArray l =>
      ret (Some {| x_min := head l; x_max := last l;
                   x_range := match head l, last l with
                              | Some first, Some final => Some (final - first)
                              | _, _ => None
                              end |})
  | DValue _ =>
      Aristochart_Error g "Bad data. Bad data supplied to the x property." ;;
      ret None
  end.

(** The second part: every line is to be an array of two points or
    more. *)
Fixpoint sanitize_lines (g : Globals) (data : RawData) : M Data unit :=
  match data with
  | [] => ret tt
  | (line, y) :: rest =>
      if String.eqb line "x" then sanitize_lines g rest
      else
        (match y with
         | DValue _ =>
             Aristochart_Error g
               ("Bad Data. Please make sure " +:+ line
                +:+ " is an array of data points")
         | DArray l =>
             if (length l <? 2)%nat then
               Aristochart_Error g
                 ("Bad data. Please make sure line " +:+ line
                  +:+ "'s data has more than one data point.")
             else ret tt
         end) ;;
        sanitize_lines g rest
  end.

Definition sanitize_line (g : Globals) : M Data unit :=
  d <- get ;;
  x <- sanitize_x g (data_raw d) ;;
  sanitize_lines g (data_raw d) ;;
  modify (fun d => {| data_raw := data_raw d; data_context := data_context d;
                      data_x := x; data_y := data_y d |}) ;;
  y <- getBounds g (data_context d) (data_raw d) ;;
  modify (fun d => {| data_raw := data_raw d; data_context := data_context d;
                      data_x := data_x d; data_y := Some y |}).

(** [refresh]: [Aristochart.Data.sanitize] has the one entry [line], so
    for another context what is called is [undefined].  (A context among
    [Object_prototype_names] finds what every object inherits; such
    contexts are outside the model.) *)
Definition Data_refresh (g : Globals) : M Data unit :=
  d <- get ;;
  validateData g (data_context d) (raw_props (data_raw d)) ;;
  if String.eqb (data_context d) "line" then sanitize_line g
  else raise (TypeError "Aristochart.Data.sanitize[this.context] is undefined").

(** ** Building a chart *)

(** The fields of a chart that is not static, before its engine starts:
    the coordinates are the "impossible" [-1], which also stands for the
    [undefined] they hold during the first tick. *)
Definition Chart_empty : Chart :=
  {| objects := ∅;
     shared := {| called := ∅; calls := [] |};
     registry := [];
     mouseBuffer := [];
     mouseX := -1; mouseY := -1; _mouseX := -1; _mouseY := -1;
     running := false;
     requested := 0 |}.

(** [new cls(data)]: the instance gets a reference of its own. *)
Definition construct (g : Globals) (cls : PrimitiveClass)
    (data : option Props) : M Chart ref :=
  fun c =>
    let r := fresh (dom (objects c)) in
    match Primitive_new g cls r data (shared c) with
    | Ret p w => Ret r (set_objects c (<[r := p]> (objects c)) w)
    | Raise e w => Raise e (set_objects c (objects c) w)
    end.

(** [n] calls of [update()] on one primitive, one after the other. *)
Fixpoint updates (g : Globals) (r : ref) (n : nat) : M Self unit :=
  match n with
  | O => ret tt
  | S k => Primitive_update g r ;; updates g r k
  end.

(** How often the trace holds the call of [f] as a completion callback. *)
Definition is_completion (f : fnref) (c : Call) : bool :=
  match call_site c with
  | OnComplete => Nat.eqb (call_fn c) f
  | _ => false
  end.

Definition completions (f : fnref) (w : World) : nat :=
  length (List.filter (is_completion f) (calls w)).

(** The test [objectsUnder] makes of one primitive, where the primitive
    has an [isInside]. *)
Definition hit (g : Globals) (c : Chart) (x y : Q) (r : ref) : bool :=
  let p := objects c !!! r in
  match isInside (obj (class p)) with
  | Some inside =>
      inside (props p) (minus g x (get_prop p "x")) (minus g y (get_prop p "y"))
  | None => false
  end.

Definition hit_testable (c : Chart) (r : ref) : bool :=
  present (isInside (obj (class (objects c !!! r)))).

(** ** Runs used below *)

(** A host with rational stand-ins for [Math]; no run below reaches
    them. *)
Definition plain_host : Host :=
  {| Math_PI := 355 # 113;
     Math_sin := fun x => x;
     Math_cos := fun _ => 1;
     Math_asin := fun x => x;
     Math_sqrt := fun x => x;
     Math_pow := fun _ _ => 1;
     ToNumber := fun _ => None |}.

(** Function [13] throws; every other function returns and leaves the
    properties of its [this] alone. *)
Definition plain_code (f : fnref) : UserFn :=
  {| fn_effect := fun ps => ps; fn_raises := Nat.eqb f 13;
     fn_discreet := fun ps => eq_refl |}.

Definition globals (debug : bool) : Globals :=
  {| DEBUG := debug; host := plain_host; code := plain_code |}.

(** The axis of the default theme: a render function and nothing else. *)
Definition axis_class : PrimitiveClass :=
  {| style := None;
     obj := {| render := Some 1%nat; isInside := None;
               getBoundingBox := None; init := None; events := None |};
     canvas := VObj; ctx := VObj |}.

(** A square of side 10 around its position, with the [isInside] of the
    default theme's point; [evs] are its event handlers. *)
Definition square_inside (_ : Props) (x y : option Q) : bool :=
  match x, y with
  | Some x, Some y =>
      num_lt (-5) x && num_lt x 5 && num_lt (-5) y && num_lt y 5
  | _, _ => false
  end.

Definition square_class (evs : option (list (string * fnref)))
  : PrimitiveClass :=
  {| style := None;
     obj := {| render := Some 1%nat; isInside := Some square_inside;
               getBoundingBox := None; init := None; events := evs |};
     canvas := VObj; ctx := VObj |}.

Definition at_xy (x y : Q) : option Props :=
  Some (<["x" := VNum x]> (<["y" := VNum y]> ∅)).

(** * Properties *)

(** ** The registry *)

Lemma indexOf_from_absent (l : list ref) (x : ref) (i : Z) :
  x ∉ l -> indexOf_from l x i = (-1)%Z.
Proof.
  revert i. induction l as [|y l IH]; intros i Hx; simpl; [done|].
  apply not_elem_of_cons in Hx as [Hne Hx].
  destruct (Nat.eqb_spec y x) as [->|_]; [done|]. by apply IH.
Qed.

Lemma indexOf_from_first (l1 l2 : list ref) (x : ref) (i : Z) :
  x ∉ l1 ->
  indexOf_from (l1 ++ x :: l2) x i = (i + Z.of_nat (length l1))%Z.
Proof.
  revert i. induction l1 as [|y l1 IH]; intros i Hx; simpl.
  - rewrite Nat.eqb_refl. lia.
  - apply not_elem_of_cons in Hx as [Hne Hx].
    destruct (Nat.eqb_spec y x) as [->|_]; [done|].
    rewrite IH by done. lia.
Qed.

(** [remove] of a primitive that is registered deletes its first
    occurrence. *)
Lemma Registry_remove_present (c : Chart) (l1 l2 : list ref) (x : ref) :
  registry c = l1 ++ x :: l2 -> x ∉ l1 ->
  Registry_remove x c = Ret tt (set_registry c (l1 ++ l2)).
Proof.
  intros Hreg Hx. unfold Registry_remove, modify. do 2 f_equal.
  unfold indexOf. rewrite Hreg, indexOf_from_first by done.
  unfold splice1. rewrite length_app. simpl.
  assert (Hlt : (0 + Z.of_nat (length l1) <? 0)%Z = false)
    by (apply Z.ltb_ge; lia).
  rewrite Hlt.
  replace (Z.to_nat _) with (length l1) by lia.
  rewrite take_app_length.
  rewrite drop_app_ge by lia.
  by replace (S (length l1) - length l1)%nat with 1%nat by lia.
Qed.

(** [remove] of a primitive that is not registered deletes the last
    entry of the registry. *)
Lemma Registry_remove_absent (c : Chart) (x : ref) :
  x ∉ registry c ->
  Registry_remove x c = Ret tt (set_registry c (removelast (registry c))).
Proof.
  intros Hx. unfold Registry_remove, modify. do 2 f_equal.
  unfold indexOf. rewrite indexOf_from_absent by done.
  unfold splice1. simpl.
  destruct (registry c) as [|y l] using rev_ind; [done|].
  rewrite removelast_last, length_app. simpl.
  replace (Z.to_nat _) with (length l) by lia.
  rewrite take_app_length.
  rewrite drop_ge; [by rewrite app_nil_r|]. rewrite length_app. simpl. lia.
Qed.

(** Two squares are built and registered, a third is built and left
    out. *)
Definition two_registered (g : Globals) : M Chart (ref * ref * ref) :=
  a <- construct g (square_class None) (at_xy 0 0) ;;
  b <- construct g (square_class None) (at_xy 50 50) ;;
  x <- construct g (square_class None) (at_xy 90 90) ;;
  Registry_add (inr [a; b]) ;;
  ret (a, b, x).

(** C5, at a primitive that is not registered: [remove(x)] raises nothing
    and does change the registry, whose last entry [b] it deletes. *)
Theorem Registry_remove_unregistered_drops_last :
  exists a b x c,
    two_registered (globals true) Chart_empty = Ret (a, b, x) c
    /\ registry c = [a; b] /\ x <> a /\ x <> b
    /\ raised (Registry_remove x c) = None
    /\ registry (final (Registry_remove x c)) = [a].
Proof. by eexists _, _, _, _; split; [vm_compute; reflexivity|]. Qed.

(** *** [objectsUnder] *)



Lemma objectsUnder_loop_stuck (g : Globals) (c : Chart) (x y : Q)
    (l1 l2 acc : list ref) (r : ref) :
  Forall (fun r => hit_testable c r = true) l1 ->
  hit_testable c r = false ->
  objectsUnder_loop g c x y (l1 ++ r :: l2) acc
  = Raise (TypeError "primitive.isInside is not a function") c.
Proof.
  revert acc. induction l1 as [|r1 l1 IH]; intros acc Hall Hr; simpl.
  - unfold hit_testable in Hr. by destruct (isInside _).
  - apply Forall_cons in Hall as [Hr1 Hall].
    unfold hit_testable in Hr1.
    destruct (isInside _) as [inside|]; [|done].
    by destruct (inside _ _ _); rewrite IH.
Qed.

(** Where a registered primitive has no [isInside], the query raises. *)
Lemma Registry_objectsUnder_stuck (g : Globals) (c : Chart) (x y : Q)
    (l1 l2 : list ref) (r : ref) :
  registry c = l1 ++ r :: l2 ->
  Forall (fun r => hit_testable c r = true) l1 ->
  hit_testable c r = false ->
  Registry_objectsUnder g x y c
  = Raise (TypeError "primitive.isInside is not a function") c.
Proof.
  intros Hreg Hall Hr. unfold Registry_objectsUnder. rewrite Hreg.
  by apply objectsUnder_loop_stuck.
Qed.

(** A square and an axis, as the line chart registers its axes. *)
Definition square_and_axis (g : Globals) : M Chart (ref * ref) :=
  a <- construct g (square_class None) (at_xy 0 0) ;;
  b <- construct g axis_class (at_xy 0 0) ;;
  Registry_add (inr [a; b]) ;;
  ret (a, b).

(** C2, at a registry that holds a primitive without [isInside]: the
    query at the centre of the square does not return the square; it
    raises a [TypeError]. *)
Theorem Registry_objectsUnder_raises_without_isInside :
  exists a b c,
    square_and_axis (globals true) Chart_empty = Ret (a, b) c
    /\ hit (globals true) c 0 0 a = true
    /\ hit_testable c b = false
    /\ Registry_objectsUnder (globals true) 0 0 c
       = Raise (TypeError "primitive.isInside is not a function") c.
Proof. by eexists _, _, _; split; [vm_compute; reflexivity|]. Qed.

(** A square defined without events, registered, and the pointer moved
    onto it. *)
Definition silent_square (g : Globals) : M Chart ref :=
  a <- construct g (square_class None) (at_xy 0 0) ;;
  Registry_add (inl a) ;;
  on_mousemove 1 1 ;;
  ret a.

(** A square with a click handler, built with [mouseEnabled: false] in
    its data. *)
Definition disabled_square (g : Globals) : M Chart ref :=
  a <- construct g (square_class (Some [("click", 5%nat)]))
         (Some (<["mouseEnabled" := VBool false]> (<["x" := VNum 0]>
                (<["y" := VNum 0]> ∅)))) ;;
  Registry_add (inl a) ;;
  ret a.

(** C6, at a primitive whose [mouseEnabled] is [false]: the query returns
    it, the hover tick puts it into the hover buffer, and a click runs
    its handler. *)
Theorem Registry_objectsUnder_ignores_mouseEnabled :
  (exists a c,
     silent_square (globals true) Chart_empty = Ret a c
     /\ get_prop (objects c !!! a) "mouseEnabled" = VBool false
     /\ Registry_objectsUnder (globals true) 1 1 c = Ret [a] c
     /\ mouseBuffer (final (dispatch_hover (globals true) c)) = [a])
  /\ (exists a c,
        disabled_square (globals true) Chart_empty = Ret a c
        /\ get_prop (objects c !!! a) "mouseEnabled" = VBool false
        /\ Registry_objectsUnder (globals true) 1 1 c = Ret [a] c
        /\ calls (shared (final (on_click (globals true) 1 1 c)))
           = [ {| call_site := OnEvent "click"; call_this := a;
                  call_fn := 5%nat |} ]).
Proof.
  split; by eexists _, _; split; [vm_compute; reflexivity|].
Qed.

(** ** [animate] *)

Definition animatable (this : Primitive) (prop : string) : bool :=
  is_number (get_prop this prop).

(** The tasks for the entries of [properties] that name a number of
    [this], in the order of [properties]. *)
Definition tasks_for (this : Primitive) (properties : list (string * Q))
    (frames : Z) (callback : option fnref) (e : EasingArg)
  : list Animation.t :=
  flat_map
    (fun entry =>
       match get_prop this (fst entry) with
       | VNum current => [task (fst entry) current (snd entry) frames callback e]
       | _ => []
       end)
    properties.

(** The entries before the first one that names no number of [this]. *)
Fixpoint valid_prefix (this : Primitive) (properties : list (string * Q))
  : list (string * Q) :=
  match properties with
  | [] => []
  | entry :: rest =>
      if animatable this (fst entry) then entry :: valid_prefix this rest
      else []
  end.

Definition all_valid (this : Primitive) (properties : list (string * Q))
  : bool :=
  forallb (fun entry => animatable this (fst entry)) properties.

Definition enqueue (s : Self) (l : list Animation.t) : Self :=
  {| this := set_animationBuffer (this s) (animationBuffer (this s) ++ l);
     world := world s |}.

Lemma enqueue_nil (s : Self) : enqueue s [] = s.
Proof.
  destruct s as [[cls ps buf] w]. unfold enqueue, set_animationBuffer.
  simpl. by rewrite app_nil_r.
Qed.

Lemma enqueue_enqueue (s : Self) (l1 l2 : list Animation.t) :
  enqueue (enqueue s l1) l2 = enqueue s (l1 ++ l2).
Proof.
  unfold enqueue, set_animationBuffer. simpl. by rewrite app_assoc.
Qed.

Lemma get_prop_enqueue (s : Self) (l : list Animation.t) (prop : string) :
  get_prop (this (enqueue s l)) prop = get_prop (this s) prop.
Proof. done. Qed.

Lemma tasks_for_enqueue (s : Self) (l : list Animation.t) properties frames
    callback e :
  tasks_for (this (enqueue s l)) properties frames callback e
  = tasks_for (this s) properties frames callback e.
Proof. done. Qed.

Lemma valid_prefix_enqueue (s : Self) (l : list Animation.t) properties :
  valid_prefix (this (enqueue s l)) properties
  = valid_prefix (this s) properties.
Proof.
  induction properties as [|entry rest IH]; [done|].
  cbn [valid_prefix]. by rewrite IH.
Qed.

Lemma all_valid_enqueue (s : Self) (l : list Animation.t) properties :
  all_valid (this (enqueue s l)) properties = all_valid (this s) properties.
Proof. done. Qed.

Lemma push_task_enqueue (a : Animation.t) (s : Self) :
  push_task a s = Ret tt (enqueue s [a]).
Proof. done. Qed.

(** The message [Error] is given for an entry whose value is [v]. *)
Definition skip_message (prop : string) (v : value) : string :=
  match v with
  | VUndef | VNull =>
      "Primitive#Animate: Property '" +:+ prop +:+ "' does not exist."
  | _ =>
      "Primitive#Animate: Property '" +:+ prop
      +:+ "' is not a number and is unanimatable"
  end.

(** One turn of the loop. *)
Lemma animate_loop_cons (g : Globals) prop property rest frames callback e
    (s : Self) :
  animate_loop g ((prop, property) :: rest) frames callback e s
  = match get_prop (this s) prop with
    | VNum current =>
        animate_loop g rest frames callback e
          (enqueue s [task prop current property frames callback e])
    | v =>
        if DEBUG g
        then Raise (AristochartError
                      ("Aristochart Error: " +:+ skip_message prop v)) s
        else animate_loop g rest frames callback e s
    end.
Proof.
  cbn [animate_loop]. unfold bind at 1, get at 1.
  destruct (get_prop (this s) prop); unfold bind, Aristochart_Error;
    by (try destruct (DEBUG g)).
Qed.

(** With [DEBUG] off the loop skips every entry that names no number and
    enqueues a task for each of the others. *)
Lemma animate_loop_off (g : Globals) properties frames callback e (s : Self) :
  DEBUG g = false ->
  animate_loop g properties frames callback e s
  = Ret tt (enqueue s (tasks_for (this s) properties frames callback e)).
Proof.
  intros Hoff. revert s.
  induction properties as [|[prop property] rest IH]; intros s.
  - simpl. by rewrite enqueue_nil.
  - rewrite animate_loop_cons, Hoff. unfold tasks_for.
    cbn [flat_map fst snd].
    fold (tasks_for (this s) rest frames callback e).
    destruct (get_prop (this s) prop); try apply IH.
    by rewrite IH, enqueue_enqueue, tasks_for_enqueue.
Qed.

(** With [DEBUG] on the loop ends at the first entry that names no
    number: the entries before it have their tasks, the entries after it
    are not looked at. *)
Lemma animate_loop_on (g : Globals) properties frames callback e (s : Self) :
  DEBUG g = true ->
  final (animate_loop g properties frames callback e s)
  = enqueue s (tasks_for (this s) (valid_prefix (this s) properties)
                 frames callback e)
  /\ (if all_valid (this s) properties
      then raised (animate_loop g properties frames callback e s) = None
      else exists msg,
          raised (animate_loop g properties frames callback e s)
          = Some (AristochartError msg)).
Proof.
  intros Hon. revert s.
  induction properties as [|[prop property] rest IH]; intros s.
  - simpl. by rewrite enqueue_nil.
  - rewrite animate_loop_cons, Hon. unfold tasks_for, all_valid.
    cbn [valid_prefix forallb fst snd].
    fold (all_valid (this s) rest). unfold animatable at 1 2.
    destruct (get_prop (this s) prop) eqn:Hv;
      cbn [final raised is_number flat_map andb];
      try (rewrite enqueue_nil; eauto; fail).
    cbn [fst snd]. rewrite Hv.
    fold (tasks_for (this s) (valid_prefix (this s) rest) frames callback e).
    destruct (IH (enqueue s [task prop q property frames callback e]))
      as [Hfin Hraised].
    rewrite all_valid_enqueue in Hraised.
    rewrite valid_prefix_enqueue, tasks_for_enqueue in Hfin.
    split; [|done].
    by rewrite Hfin, enqueue_enqueue.
Qed.

(** The loop uses the easing argument for the easing of its tasks and
    for nothing else. *)
Lemma animate_loop_easing (g : Globals) properties frames callback e e'
    (s : Self) :
  easing_or_default e = easing_or_default e' ->
  animate_loop g properties frames callback e s
  = animate_loop g properties frames callback e' s.
Proof.
  intros He. revert s.
  induction properties as [|[prop property] rest IH]; intros s; [done|].
  rewrite !animate_loop_cons.
  destruct (get_prop (this s) prop); try (by rewrite IH).
  unfold task. by rewrite He, IH.
Qed.

(** The state a method of the primitive [r] of the chart [c] runs in. *)
Definition self_of (c : Chart) (r : ref) : Self :=
  {| this := objects c !!! r; world := shared c |}.

(** A square at the origin, its [x] and [y] the only data of the caller. *)
Definition origin_square (g : Globals) : Self :=
  let c := final (construct g (square_class None) (at_xy 0 0) Chart_empty) in
  self_of c 0%nat.

(** The easing test in front of the loop. *)
Lemma Primitive_animate_test (g : Globals) (s : Self) properties frames
    callback easing :
  let e := easing_of callback easing in
  Primitive_animate g properties frames callback easing s
  = if DEBUG g && (easing_truthy e && negb (present (Easing (easing_key e))))
    then Raise (AristochartError
                  ("Aristochart Error: " +:+ "Easing function '"
                   +:+ easing_key e
                   +:+ "' does not exist. See Aristochart.Easing for a list of supported easing functions."))
               s
    else animate_loop g properties frames (callback_of callback) e s.
Proof.
  intros e. unfold Primitive_animate. fold e.
  unfold bind at 1, Aristochart_Error.
  by destruct (easing_truthy e && _), (DEBUG g).
Qed.

(** C7 as amended.  Once the easing name is accepted, the call goes
    through the entries in order.  With [DEBUG] off, an entry that names
    no number of the instance is skipped, nothing is raised, and every
    other entry gets its task.  With [DEBUG] on, the first such entry
    raises and ends the call: the entries before it have their tasks, the
    entries after it have none. *)
Theorem animate_skips_or_stops (g : Globals) (s : Self)
    (properties : list (string * Q)) (frames : Z) (callback : CallbackArg)
    (easing : option string) :
  let e := easing_of callback easing in
  let result := Primitive_animate g properties frames callback easing s in
  easing_truthy e && negb (present (Easing (easing_key e))) = false ->
  if DEBUG g then
    final result
    = enqueue s (tasks_for (this s) (valid_prefix (this s) properties)
                   frames (callback_of callback) e)
    /\ (if all_valid (this s) properties then raised result = None
        else exists msg, raised result = Some (AristochartError msg))
  else
    result
    = Ret tt (enqueue s (tasks_for (this s) properties frames
                           (callback_of callback) e)).
Proof.
  intros e result Hok. subst result. rewrite Primitive_animate_test.
  fold e. rewrite Hok, andb_false_r.
  destruct (DEBUG g) eqn:Hd.
  - by apply animate_loop_on.
  - by apply animate_loop_off.
Qed.

Lemma animate_skips_or_stops_witness :
  (let result :=
     Primitive_animate (globals true) [("x", 5); ("nope", 1); ("y", 7)] 10
       NoCallback None (origin_square (globals true)) in
   final result
   = enqueue (origin_square (globals true))
       [task "x" 0 5 10 None NoEasing]
   /\ exists msg, raised result = Some (AristochartError msg))
  /\ Primitive_animate (globals false) [("x", 5); ("nope", 1); ("y", 7)] 10
       NoCallback None (origin_square (globals false))
     = Ret tt (enqueue (origin_square (globals false))
                 [task "x" 0 5 10 None NoEasing;
                  task "y" 0 7 10 None NoEasing]).
Proof.
  split.
  - exact (animate_skips_or_stops (globals true) (origin_square (globals true))
             [("x", 5); ("nope", 1); ("y", 7)] 10 NoCallback None eq_refl).
  - exact (animate_skips_or_stops (globals false)
             (origin_square (globals false))
             [("x", 5); ("nope", 1); ("y", 7)] 10 NoCallback None eq_refl).
Defined.

(** C7 as stated fails with [DEBUG] on, its value in the source: the
    entry ["nope"] raises, the call does not continue, and ["x"], a
    number of the instance, gets no task. *)
Lemma animate_stops_at_missing_property :
  let s := origin_square (globals true) in
  let result :=
    Primitive_animate (globals true) [("nope", 1); ("x", 5)] 10
      NoCallback None s in
  animatable (this s) "x" = true
  /\ raised result
     = Some (AristochartError
               "Aristochart Error: Primitive#Animate: Property 'nope' does not exist.")
  /\ animationBuffer (this (final result)) = [].
Proof. by vm_compute. Qed.

(** C8 as amended.  For a name the easing table does not hold: with
    [DEBUG] on and the name truthy, the call raises before it enqueues
    anything; otherwise the call is the call without an easing name, whose
    tasks carry [easeInQuad]. *)
Theorem animate_unknown_easing (g : Globals) (s : Self)
    (properties : list (string * Q)) (frames : Z) (callback : CallbackArg)
    (easing : option string) :
  let e := easing_of callback easing in
  Easing (easing_key e) = None ->
  easing_key e ∉ Object_prototype_names ->
  if DEBUG g && easing_truthy e then
    exists msg,
      Primitive_animate g properties frames callback easing s
      = Raise (AristochartError msg) s
  else
    easing_or_default e = easeInQuad
    /\ Primitive_animate g properties frames callback easing s
       = Primitive_animate g properties frames
           (match callback with Fn f => Fn f | _ => NoCallback end) None s.
Proof.
  intros e Hnone _. rewrite !Primitive_animate_test. fold e.
  rewrite Hnone. cbn [present negb]. rewrite andb_true_r.
  destruct (DEBUG g && easing_truthy e); [by eexists|].
  assert (Hdefault : easing_or_default e = easeInQuad)
    by (unfold easing_or_default; by rewrite Hnone).
  split; [done|].
  replace (DEBUG g && _) with false
    by (destruct callback; by rewrite andb_false_r).
  replace (callback_of match callback with Fn f => Fn f | _ => NoCallback end)
    with (callback_of callback) by by destruct callback.
  apply animate_loop_easing. rewrite Hdefault. by destruct callback.
Qed.

Lemma animate_unknown_easing_witness :
  (exists msg,
     Primitive_animate (globals true) [("x", 5)] 10 NoCallback (Some "wobble")
       (origin_square (globals true))
     = Raise (AristochartError msg) (origin_square (globals true)))
  /\ easing_or_default (Name "wobble") = easeInQuad
  /\ Primitive_animate (globals false) [("x", 5)] 10 (Fn 7%nat) (Some "wobble")
       (origin_square (globals false))
     = Primitive_animate (globals false) [("x", 5)] 10 (Fn 7%nat) None
         (origin_square (globals false)).
Proof.
  split.
  - apply (animate_unknown_easing (globals true) (origin_square (globals true))
             [("x", 5)] 10 NoCallback (Some "wobble")).
    + reflexivity.
    + apply (bool_decide_unpack _). vm_compute. reflexivity.
  - apply (animate_unknown_easing (globals false)
             (origin_square (globals false))
             [("x", 5)] 10 (Fn 7%nat) (Some "wobble")).
    + reflexivity.
    + apply (bool_decide_unpack _). vm_compute. reflexivity.
Defined.

(** C8 as stated fails with [DEBUG] on, its value in the source: the call
    with the unknown name ["wobble"] raises, and the instance, whose [x]
    is a number, is left without a task. *)
Lemma animate_raises_on_unknown_easing :
  let s := origin_square (globals true) in
  let result :=
    Primitive_animate (globals true) [("x", 5)] 10 NoCallback (Some "wobble") s in
  Easing "wobble" = None
  /\ animatable (this s) "x" = true
  /\ raised result
     = Some (AristochartError
               "Aristochart Error: Easing function 'wobble' does not exist. See Aristochart.Easing for a list of supported easing functions.")
  /\ animationBuffer (this (final result)) = [].
Proof. by vm_compute. Qed.

(** ** The error gate *)

(** [Aristochart.Error] throws when [DEBUG] is on and returns when it is
    off. *)
Lemma Aristochart_Error_gate {S} (g : Globals) (msg : string) (s : S) :
  Aristochart_Error g msg s
  = if DEBUG g
    then Raise (AristochartError ("Aristochart Error: " +:+ msg)) s
    else Ret tt s.
Proof. unfold Aristochart_Error. by destruct (DEBUG g). Qed.

(** With [DEBUG] off, the checks of the factory, of [animate] and of the
    line data return, and what follows them runs: the factory returns the
    constructor whatever [obj] lacks, [animate] goes through its entries
    with [easeInQuad] for a name the table does not hold, and
    [validateData] returns. *)
Lemma checks_pass_with_DEBUG_off {S} (g : Globals) :
  DEBUG g = false ->
  (forall style obj canvas ctx (s : S),
      Aristochart_Primitive g style obj canvas ctx s
      = Ret {| style := style; obj := obj; canvas := canvas; ctx := ctx |} s)
  /\ (forall properties frames callback easing s,
         Primitive_animate g properties frames callback easing s
         = Ret tt (enqueue s (tasks_for (this s) properties frames
                                (callback_of callback)
                                (easing_of callback easing))))
  /\ (forall raw (s : S), validateData g "line" raw s = Ret tt s).
Proof.
  intros Hoff. repeat split.
  - intros. unfold Aristochart_Primitive, bind, Aristochart_Error.
    rewrite Hoff. by destruct (negb _), (_ && _).
  - intros. rewrite Primitive_animate_test, Hoff. by apply animate_loop_off.
  - intros. unfold validateData, Aristochart_Error. rewrite Hoff. simpl.
    by destruct (_ || _).
Qed.

(** C10, at the data of a pie chart: [validateData] raises a [TypeError]
    whatever the data and whatever [DEBUG], so with [DEBUG] off this check
    does not return. *)
Theorem validateData_pie_raises {S} (g : Globals) (raw : Props) (s : S) :
  validateData g "pie" raw s
  = Raise (TypeError "Object.key is not a function") s.
Proof. reflexivity. Qed.

(** ** The animation queue *)

(** A task as it is but for its remaining frames. *)
Definition at_frame (z : Z) (a : Animation.t) : Animation.t :=
  {| Animation.frame := z;
     Animation.length := Animation.length a;
     Animation.callback := Animation.callback a;
     Animation.property := Animation.property a;
     Animation.initialValue := Animation.initialValue a;
     Animation.range := Animation.range a;
     Animation.easing := Animation.easing a |}.

(** The value a task writes when [z] frames remain. *)
Definition eased (g : Globals) (a : Animation.t) (z : Z) : Q :=
  Animation.initialValue a
  + Easing_fn (host g) (Animation.easing a)
      (inject_Z (Animation.length a - z + 1)) 0
      (Animation.range a) (inject_Z (Animation.length a)).

(** The tasks of a queue whose callback is not [f] and does not throw. *)
Definition quiet_task (g : Globals) (f : fnref) (a : Animation.t) : Prop :=
  match Animation.callback a with
  | Some f' => f' <> f /\ fn_raises (code g f') = false
  | None => True
  end.

Definition quiet (g : Globals) (f : fnref) (buf : list Animation.t) : Prop :=
  Forall (quiet_task g f) buf.

Ltac split_all :=
  repeat match goal with
         | |- _ /\ _ => split
         | |- quiet _ _ [] => apply Forall_nil_2
         | |- Forall _ [] => apply Forall_nil_2
         | |- _ <-> _ => done
         | |- _ = _ => done
         end.

Lemma quiet_task_at_frame g f z a :
  quiet_task g f a -> quiet_task g f (at_frame z a).
Proof. done. Qed.

Lemma decrement_at_frame z a :
  Animation.decrement (at_frame z a) = at_frame (z - 1) a.
Proof. done. Qed.

Lemma completions_app f w flags c :
  completions f {| called := flags; calls := calls w ++ [c] |}
  = (completions f w + (if is_completion f c then 1 else 0))%nat.
Proof.
  unfold completions. simpl. rewrite List.filter_app, length_app. simpl.
  by destruct (is_completion f c).
Qed.

Lemma update_tasks_app g r i l1 l2 s :
  update_tasks g r i (l1 ++ l2) s
  = (k1 <- update_tasks g r i l1 ;;
     k2 <- update_tasks g r (i + length l1) l2 ;;
     ret (k1 ++ k2)) s.
Proof.
  revert i s. induction l1 as [|a l1 IH]; intros i s.
  - cbn [app update_tasks length]. unfold bind, ret. rewrite Nat.add_0_r.
    by destruct (update_tasks g r i l2 s).
  - cbn [app update_tasks]. unfold bind, ret in *.
    destruct (update_task g r i a s) as [kept s1|]; [|done].
    rewrite IH.
    replace (i + length (a :: l1))%nat with (S i + length l1)%nat
      by (simpl; lia).
    destruct (update_tasks g r (S i) l1 s1) as [k1 s2|]; [|done].
    destruct (update_tasks g r (S i + length l1) l2 s2); [|done].
    by rewrite app_assoc.
Qed.

(** [update] is the loop over the queue, also when the queue is empty. *)
Lemma Primitive_update_tasks g r s :
  Primitive_update g r s
  = (newBuffer <- update_tasks g r 0 (animationBuffer (this s)) ;;
     with_this (fun p => set_animationBuffer p newBuffer)) s.
Proof.
  unfold Primitive_update. unfold bind at 1, get.
  destruct (animationBuffer (this s)) eqn:Hbuf; [|done].
  destruct s as [[cls ps buf] w]. simpl in Hbuf. by subst buf.
Qed.

(** A task with frames left writes its value, loses a frame and stays. *)
Lemma update_task_running g r i a s :
  Animation.frame a <> 0%Z ->
  exists s',
    update_task g r i a s = Ret [Animation.decrement a] s'
    /\ world s' = world s
    /\ props (this s')
       = <[Animation.property a := VNum (eased g a (Animation.frame a))]>
           (props (this s)).
Proof.
  intros Hframe. unfold update_task.
  destruct (Z.eqb_spec (Animation.frame a) 0) as [|_]; [done|].
  cbn [negb]. by eexists.
Qed.

(** A task of another callback that does not throw: whatever it does,
    [f] is not called and the [called] flag of [f] is not touched. *)
Lemma update_task_quiet g f r i a s :
  quiet_task g f a ->
  exists kept s',
    update_task g r i a s = Ret kept s'
    /\ quiet g f kept
    /\ completions f (world s') = completions f (world s)
    /\ (f ∈ called (world s') <-> f ∈ called (world s)).
Proof.
  intros Hq. unfold update_task.
  destruct (Z.eqb_spec (Animation.frame a) 0) as [Hz|Hz]; cbn [negb].
  - unfold quiet_task in Hq.
    destruct (Animation.callback a) as [f'|]; [|eexists _, _; split_all].
    destruct Hq as [Hne Hret]. unfold bind at 1, get.
    case_bool_decide; [eexists _, _; split_all|].
    unfold bind, invoke. rewrite Hret. cbn [mark_called modify ret].
    eexists _, _. split; [done|]. split; [apply Forall_nil_2|].
    cbn [world called calls]. split.
    + rewrite completions_app. unfold is_completion. simpl.
      destruct (Nat.eqb_spec f' f); [done|lia].
    + rewrite elem_of_union, elem_of_singleton.
      split; [intros [Heq|?]; [by subst|done] | by right].
  - eexists _, _. split; [done|]. split; [|done].
    apply Forall_singleton. by destruct a.
Qed.

Lemma update_tasks_quiet g f r i buf s :
  quiet g f buf ->
  exists kept s',
    update_tasks g r i buf s = Ret kept s'
    /\ quiet g f kept
    /\ completions f (world s') = completions f (world s)
    /\ (f ∈ called (world s') <-> f ∈ called (world s)).
Proof.
  revert i s. induction buf as [|a buf IH]; intros i s Hq.
  - eexists _, _. split_all.
  - apply Forall_cons in Hq as [Ha Hq].
    destruct (update_task_quiet g f r i a s Ha)
      as (k1 & s1 & E1 & Q1 & C1 & F1).
    destruct (IH (S i) s1 Hq) as (k2 & s2 & E2 & Q2 & C2 & F2).
    exists (k1 ++ k2), s2. cbn [update_tasks]. unfold bind at 1.
    rewrite E1. unfold bind. rewrite E2. cbn [ret]. split; [done|].
    split; [by apply Forall_app|]. split; [congruence|tauto].
Qed.

(** Tasks that all carry the callback [f]. *)
Definition cohort (f : fnref) (news : list Animation.t) : Prop :=
  Forall (fun a => Animation.callback a = Some f) news.

(** A pass over tasks that all have [z] frames left, [z] not zero: each
    writes its value and stays with one frame less; the property of the
    last of them holds what that task wrote. *)
Lemma update_tasks_running g r z news i s :
  z <> 0%Z ->
  exists s',
    update_tasks g r i (map (at_frame z) news) s
    = Ret (map (at_frame (z - 1)) news) s'
    /\ world s' = world s
    /\ (forall news' t, news = news' ++ [t] ->
        props (this s') !! Animation.property t = Some (VNum (eased g t z))).
Proof.
  intros Hz.
  assert (Hret : forall news i s, exists s',
             update_tasks g r i (map (at_frame z) news) s
             = Ret (map (at_frame (z - 1)) news) s'
             /\ world s' = world s).
  { clear news i s. induction news as [|a news IH]; intros i s.
    - by eexists.
    - destruct (update_task_running g r i (at_frame z a) s Hz)
        as (s1 & E1 & W1 & _).
      destruct (IH (S i) s1) as (s2 & E2 & W2).
      exists s2. cbn [map update_tasks]. unfold bind, ret.
      rewrite E1, E2. split; [done|congruence]. }
  destruct news as [|t news'] using rev_ind.
  - destruct (Hret [] i s) as (s' & E & W). exists s'.
    split; [done|]. split; [done|]. intros news' t Heq.
    by destruct news'.
  - clear IHnews'. rewrite !map_app. cbn [map].
    rewrite update_tasks_app. unfold bind, ret.
    destruct (Hret news' i s) as (s1 & E1 & W1). rewrite E1.
    destruct (update_task_running g r (i + length (map (at_frame z) news'))
                (at_frame z t) s1 Hz) as (s2 & E2 & W2 & P2).
    cbn [update_tasks]. unfold bind, ret. rewrite E2.
    exists s2. rewrite app_nil_r. split; [done|]. split; [congruence|].
    intros news'' t' Heq. apply app_inj_tail in Heq as [_ <-].
    rewrite P2. apply lookup_insert_eq.
Qed.

(** A pass over finished tasks of [f] once [f] is marked: nothing
    happens. *)
Lemma update_tasks_fired g r f news i s :
  cohort f news -> f ∈ called (world s) ->
  update_tasks g r i (map (at_frame 0) news) s = Ret [] s.
Proof.
  revert i. induction news as [|a news IH]; intros i Hc Hf; [done|].
  apply Forall_cons in Hc as [Ha Hc].
  cbn [map update_tasks]. unfold bind at 1. unfold update_task.
  cbn [at_frame Animation.frame Animation.callback Z.eqb negb].
  rewrite Ha. unfold bind at 1, get. rewrite bool_decide_eq_true_2 by done.
  cbn [ret]. unfold bind, ret. by rewrite IH.
Qed.

(** A pass over finished tasks of [f] while [f] is not marked: the first
    of them calls [f] and marks it. *)
Lemma update_tasks_fire g r f news i s :
  cohort f news -> news <> [] ->
  f ∉ called (world s) -> fn_raises (code g f) = false ->
  exists s',
    update_tasks g r i (map (at_frame 0) news) s = Ret [] s'
    /\ completions f (world s') = S (completions f (world s))
    /\ f ∈ called (world s').
Proof.
  intros Hc Hne Hf Hret. destruct news as [|a news]; [done|].
  apply Forall_cons in Hc as [Ha Hc].
  cbn [map update_tasks]. unfold bind at 1. unfold update_task.
  cbn [at_frame Animation.frame Animation.callback Z.eqb negb].
  rewrite Ha. unfold bind at 1, get. rewrite bool_decide_eq_false_2 by done.
  unfold bind at 1 2, invoke. rewrite Hret. cbn [mark_called modify ret].
  unfold bind, ret. rewrite (update_tasks_fired g r f); [|done|].
  - eexists. split; [done|]. cbn [world called calls].
    split; [|rewrite elem_of_union, elem_of_singleton; by left].
    rewrite completions_app. unfold is_completion. simpl.
    rewrite Nat.eqb_refl. lia.
  - cbn [world called]. rewrite elem_of_union, elem_of_singleton. by left.
Qed.

(** One [update()] while the tasks of [f] have frames left. *)
Lemma step_running g f r z buf news s :
  animationBuffer (this s) = buf ++ map (at_frame z) news ->
  z <> 0%Z -> quiet g f buf ->
  exists buf' s',
    Primitive_update g r s = Ret tt s'
    /\ animationBuffer (this s') = buf' ++ map (at_frame (z - 1)) news
    /\ quiet g f buf'
    /\ completions f (world s') = completions f (world s)
    /\ (f ∈ called (world s') <-> f ∈ called (world s))
    /\ (forall news' t, news = news' ++ [t] ->
        props (this s') !! Animation.property t = Some (VNum (eased g t z))).
Proof.
  intros Hbuf Hz Hq. rewrite Primitive_update_tasks, Hbuf.
  unfold bind at 1. rewrite update_tasks_app. unfold bind at 1.
  destruct (update_tasks_quiet g f r 0 buf s Hq)
    as (buf' & s1 & E1 & Q1 & C1 & F1).
  rewrite E1. unfold bind at 1.
  destruct (update_tasks_running g r z news (0 + length buf) s1 Hz)
    as (s2 & E2 & W2 & P2).
  rewrite E2. cbn [ret with_this modify].
  eexists buf', _. split; [done|]. cbn [this world]. rewrite W2.
  split_all; done.
Qed.

(** The [update()] after the last frame of the tasks of [f]: [f] is
    called once, and its tasks leave the queue. *)
Lemma step_fire g f r buf news s :
  animationBuffer (this s) = buf ++ map (at_frame 0) news ->
  cohort f news -> news <> [] -> quiet g f buf ->
  f ∉ called (world s) -> fn_raises (code g f) = false ->
  exists s',
    Primitive_update g r s = Ret tt s'
    /\ quiet g f (animationBuffer (this s'))
    /\ completions f (world s') = S (completions f (world s)).
Proof.
  intros Hbuf Hc Hne Hq Hf Hret. rewrite Primitive_update_tasks, Hbuf.
  unfold bind at 1. rewrite update_tasks_app. unfold bind at 1.
  destruct (update_tasks_quiet g f r 0 buf s Hq)
    as (buf' & s1 & E1 & Q1 & C1 & F1).
  rewrite E1. unfold bind at 1.
  destruct (update_tasks_fire g r f news (0 + length buf) s1 Hc Hne)
    as (s2 & E2 & C2 & F2); [tauto|done|].
  rewrite E2. cbn [ret with_this modify].
  eexists. split; [done|]. cbn [this world set_animationBuffer animationBuffer].
  rewrite app_nil_r. split; [done|congruence].
Qed.

(** One [update()] of a queue without tasks of [f]. *)
Lemma step_quiet g f r s :
  quiet g f (animationBuffer (this s)) ->
  exists s',
    Primitive_update g r s = Ret tt s'
    /\ quiet g f (animationBuffer (this s'))
    /\ completions f (world s') = completions f (world s).
Proof.
  intros Hq.
  destruct (step_running g f r 1 (animationBuffer (this s)) [] s)
    as (buf' & s' & E & B & Q & C & _); [by rewrite app_nil_r|done|done|].
  exists s'. rewrite B, app_nil_r. done.
Qed.

Lemma updates_add g r m1 m2 s :
  updates g r (m1 + m2) s = (updates g r m1 ;; updates g r m2) s.
Proof.
  revert s. induction m1 as [|m1 IH]; intros s; [done|].
  cbn [Nat.add updates]. unfold bind in *.
  destruct (Primitive_update g r s); [apply IH|done].
Qed.

(** [m] calls of [update()] while the tasks of [f] have at least [m]
    frames left. *)
Lemma run_running g f r news m :
  forall z buf s,
    animationBuffer (this s) = buf ++ map (at_frame z) news ->
    (Z.of_nat m <= z)%Z -> quiet g f buf ->
    exists buf' s',
      updates g r m s = Ret tt s'
      /\ animationBuffer (this s') = buf' ++ map (at_frame (z - Z.of_nat m)) news
      /\ quiet g f buf'
      /\ completions f (world s') = completions f (world s)
      /\ (f ∈ called (world s') <-> f ∈ called (world s))
      /\ (forall news' t, (0 < m)%nat -> news = news' ++ [t] ->
          props (this s') !! Animation.property t
          = Some (VNum (eased g t (z - Z.of_nat m + 1)))).
Proof.
  induction m as [|m IH]; intros z buf s Hbuf Hm Hq.
  - exists buf, s. cbn [updates ret]. rewrite Z.sub_0_r.
    split_all; try done. intros; lia.
  - destruct (step_running g f r z buf news s Hbuf ltac:(lia) Hq)
      as (buf1 & s1 & E1 & B1 & Q1 & C1 & F1 & P1).
    destruct (IH (z - 1)%Z buf1 s1 B1 ltac:(lia) Q1)
      as (buf2 & s2 & E2 & B2 & Q2 & C2 & F2 & P2).
    exists buf2, s2. cbn [updates]. unfold bind. rewrite E1, E2.
    replace (z - Z.of_nat (S m))%Z with (z - 1 - Z.of_nat m)%Z by lia.
    split_all; try done; try congruence; try tauto.
    intros news' t _ Heq. destruct m as [|m].
    + cbn [updates ret] in E2. injection E2 as <-.
      rewrite (P1 news' t Heq). do 3 f_equal. simpl. lia.
    + apply (P2 news' t); [lia|done].
Qed.

Lemma run_quiet g f r m :
  forall s,
    quiet g f (animationBuffer (this s)) ->
    exists s',
      updates g r m s = Ret tt s'
      /\ quiet g f (animationBuffer (this s'))
      /\ completions f (world s') = completions f (world s).
Proof.
  induction m as [|m IH]; intros s Hq; [by exists s|].
  destruct (step_quiet g f r s Hq) as (s1 & E1 & Q1 & C1).
  destruct (IH s1 Q1) as (s2 & E2 & Q2 & C2).
  exists s2. cbn [updates]. unfold bind. rewrite E1, E2.
  split; [done|]. split; [done|congruence].
Qed.

(** The life of the tasks of [f] that start with [n] frames: no call of
    [update()] throws; [f] is called by none of the first [n] of them and
    once by the one after, and never again. *)
Lemma cohort_completes g f r n buf news s :
  animationBuffer (this s) = buf ++ map (at_frame (Z.of_nat n)) news ->
  cohort f news -> news <> [] -> quiet g f buf ->
  f ∉ called (world s) -> fn_raises (code g f) = false ->
  forall m, exists s',
    updates g r m s = Ret tt s'
    /\ completions f (world s')
       = (completions f (world s) + (if (m <=? n)%nat then 0 else 1))%nat.
Proof.
  intros Hbuf Hc Hne Hq Hf Hret m.
  destruct (Nat.leb_spec m n) as [Hle|Hgt].
  - destruct (run_running g f r news m _ buf s Hbuf ltac:(lia) Hq)
      as (buf' & s' & E & _ & _ & C & _).
    exists s'. split; [done|lia].
  - replace m with (n + (1 + (m - n - 1)))%nat by lia.
    destruct (run_running g f r news n _ buf s Hbuf ltac:(lia) Hq)
      as (buf1 & s1 & E1 & B1 & Q1 & C1 & F1 & _).
    rewrite Z.sub_diag in B1.
    destruct (step_fire g f r buf1 news s1 B1 Hc Hne Q1 ltac:(tauto) Hret)
      as (s2 & E2 & Q2 & C2).
    destruct (run_quiet g f r (m - n - 1) s2 Q2) as (s3 & E3 & Q3 & C3).
    exists s3. rewrite updates_add. unfold bind at 1. rewrite E1.
    rewrite updates_add. unfold bind at 1. cbn [updates]. unfold bind at 1.
    rewrite E2. cbn [ret]. split; [done|lia].
Qed.

Lemma at_frame_task prop current property n callback e :
  at_frame n (task prop current property n callback e)
  = task prop current property n callback e.
Proof. done. Qed.

Lemma inject_Z_nonzero (n : nat) : (0 < n)%nat -> ~ inject_Z (Z.of_nat n) == 0.
Proof. intros Hn. unfold Qeq. simpl. lia. Qed.

(** C1 as amended.  [animate({p: target}, n, f)] with [n] at least one, on
    an instance whose [p] is a number, [f] being a callback that does not
    throw, is not marked [called] and is not the callback of a task
    already queued, the callbacks of those tasks not throwing either.
    After exactly [n] calls of [update()], [p] holds what the last frame
    wrote, [current + (target - current) * (n / n) * (n / n)], the
    expression of the source; evaluated without rounding it is [target],
    so that [p] is [target] within the tolerance of the host's
    floating-point operations.  By then [f] has not been called; the call
    of [update()] after these calls [f], and after any number of calls
    beyond [n] it has been called exactly once. *)
Theorem animate_reaches_target_then_calls_back (g : Globals) (r : ref)
    (s : Self) (p : string) (current target : Q) (n : nat) (f : fnref) :
  get_prop (this s) p = VNum current ->
  (0 < n)%nat ->
  quiet g f (animationBuffer (this s)) ->
  f ∉ called (world s) ->
  fn_raises (code g f) = false ->
  exists s1,
    Primitive_animate g [(p, target)] (Z.of_nat n) (Fn f) None s = Ret tt s1
    /\ (exists sn v,
           updates g r n s1 = Ret tt sn
           /\ get_prop (this sn) p = VNum v
           /\ v == current
                   + (target - current)
                     * (inject_Z (Z.of_nat n) / inject_Z (Z.of_nat n))
                     * (inject_Z (Z.of_nat n) / inject_Z (Z.of_nat n))
           /\ current
              + (target - current)
                * (inject_Z (Z.of_nat n) / inject_Z (Z.of_nat n))
                * (inject_Z (Z.of_nat n) / inject_Z (Z.of_nat n))
              == target
           /\ completions f (world sn) = completions f (world s))
    /\ (forall m, (n < m)%nat ->
        exists sm,
          updates g r m s1 = Ret tt sm
          /\ completions f (world sm) = S (completions f (world s))).
Proof.
  intros Hp Hn Hq Hf Hret.
  set (t := task p current target (Z.of_nat n) (Some f) NoEasing).
  exists (enqueue s [t]). split.
  { rewrite Primitive_animate_test. cbn [easing_of easing_truthy andb].
    rewrite andb_false_r, animate_loop_cons, Hp. done. }
  assert (Hbuf : animationBuffer (this (enqueue s [t]))
                 = animationBuffer (this s) ++ map (at_frame (Z.of_nat n)) [t])
    by done.
  split.
  - destruct (run_running g f r [t] n _ _ _ Hbuf ltac:(lia) Hq)
      as (buf' & sn & E & _ & _ & C & _ & P).
    specialize (P [] t Hn eq_refl).
    change (Animation.property t) with p in P.
    exists sn, (eased g t (Z.of_nat n - Z.of_nat n + 1)).
    split; [done|]. split; [|split; [|split; [|done]]].
    + unfold get_prop. by rewrite P.
    + unfold eased, t, task.
      cbn [Animation.initialValue Animation.easing Animation.length
           Animation.range easing_or_default easing_key].
      replace (Z.of_nat n - (Z.of_nat n - Z.of_nat n + 1) + 1)%Z
        with (Z.of_nat n) by lia.
      change (Easing_fn (host g) (easing_or_default NoEasing))
        with easeInQuad_fn.
      unfold easeInQuad_fn, Qdiv. cbv zeta. ring.
    + field. by apply inject_Z_nonzero.
  - intros m Hm.
    destruct (cohort_completes g f r n (animationBuffer (this s)) [t]
                (enqueue s [t]) Hbuf) with (m := m) as (sm & E & C);
      [by apply Forall_singleton|done|done|done|done|].
    exists sm. split; [done|]. rewrite C.
    destruct (Nat.leb_spec m n); [lia|]. cbn [world enqueue]. lia.
Qed.

Lemma animate_reaches_target_then_calls_back_witness :
  exists s1,
    Primitive_animate (globals true) [("x", 100)] (Z.of_nat 10) (Fn 7%nat) None
      (origin_square (globals true)) = Ret tt s1
    /\ (exists sn v,
           updates (globals true) 0%nat 10 s1 = Ret tt sn
           /\ get_prop (this sn) "x" = VNum v
           /\ v == 0
                   + (100 - 0)
                     * (inject_Z (Z.of_nat 10) / inject_Z (Z.of_nat 10))
                     * (inject_Z (Z.of_nat 10) / inject_Z (Z.of_nat 10))
           /\ 0
              + (100 - 0)
                * (inject_Z (Z.of_nat 10) / inject_Z (Z.of_nat 10))
                * (inject_Z (Z.of_nat 10) / inject_Z (Z.of_nat 10))
              == 100
           /\ completions 7%nat (world sn)
              = completions 7%nat (world (origin_square (globals true))))
    /\ (forall m, (10 < m)%nat ->
        exists sm,
          updates (globals true) 0%nat m s1 = Ret tt sm
          /\ completions 7%nat (world sm)
             = S (completions 7%nat (world (origin_square (globals true))))).
Proof.
  apply (animate_reaches_target_then_calls_back (globals true) 0%nat
           (origin_square (globals true)) "x" 0 100 10 7%nat).
  - reflexivity.
  - lia.
  - apply Forall_nil_2.
  - apply (bool_decide_unpack _). vm_compute. reflexivity.
  - reflexivity.
Defined.

(** [animate({x: 100}, 10, f)] on a square whose [x] is [0]. *)
Definition x_to_100 (g : Globals) : Self :=
  final (Primitive_animate g [("x", 100)] 10 (Fn 7%nat) None (origin_square g)).

(** C1 as stated fails: after exactly ten calls of [update()], [x] is
    [100] and the callback has not been called; the eleventh call calls
    it. *)
Lemma callback_not_called_after_N_updates :
  let s10 := final (updates (globals true) 0%nat 10 (x_to_100 (globals true))) in
  let s11 := final (updates (globals true) 0%nat 11 (x_to_100 (globals true))) in
  (exists v, get_prop (this s10) "x" = VNum v /\ v == 100)
  /\ calls (world s10) = []
  /\ completions 7%nat (world s10) = 0%nat
  /\ completions 7%nat (world s11) = 1%nat.
Proof. split; [eexists; split; [by vm_compute|done]|by vm_compute]. Qed.

Lemma valid_prefix_all (this : Primitive) properties :
  all_valid this properties = true -> valid_prefix this properties = properties.
Proof.
  induction properties as [|entry rest IH]; [done|].
  unfold all_valid. cbn [forallb valid_prefix]. intros [Ha Hr]%andb_true_iff.
  rewrite Ha. f_equal. by apply IH.
Qed.

(** A call of [animate] that returns has enqueued the tasks of its
    entries. *)
Lemma Primitive_animate_returns g properties frames callback easing s s1 :
  Primitive_animate g properties frames callback easing s = Ret tt s1 ->
  s1 = enqueue s (tasks_for (this s) properties frames (callback_of callback)
                    (easing_of callback easing)).
Proof.
  rewrite Primitive_animate_test.
  destruct (DEBUG g) eqn:Hd; cbn [andb].
  - destruct (easing_truthy _ && _); [done|]. intros Hloop.
    destruct (animate_loop_on g properties frames (callback_of callback)
                (easing_of callback easing) s Hd) as [Hfin Hraised].
    rewrite Hloop in Hfin, Hraised. cbn [final raised] in Hfin, Hraised.
    destruct (all_valid (this s) properties) eqn:Hall.
    + by rewrite valid_prefix_all in Hfin.
    + by destruct Hraised.
  - rewrite animate_loop_off by done. by intros [= <-].
Qed.

Lemma tasks_for_cohort this properties frames f e :
  cohort f (tasks_for this properties frames (Some f) e).
Proof.
  induction properties as [|entry rest IH]; [apply Forall_nil_2|].
  unfold tasks_for. cbn [flat_map]. apply Forall_app. split; [|done].
  destruct (get_prop this entry.1); try apply Forall_nil_2.
  by apply Forall_singleton.
Qed.

Lemma tasks_for_at_frame this properties frames callback e :
  map (at_frame frames) (tasks_for this properties frames callback e)
  = tasks_for this properties frames callback e.
Proof.
  induction properties as [|entry rest IH]; [done|].
  unfold tasks_for. cbn [flat_map]. rewrite map_app. f_equal; [|done].
  by destruct (get_prop this entry.1).
Qed.

(** C4 as amended.  The tasks one call of [animate] enqueues share its
    callback [f], and the completion state is the [called] flag on [f]
    itself.  Where [f] does not throw, is not marked yet and is not the
    callback of a task already queued (whose callbacks do not throw
    either), [f] is called once for the call as a whole, however many
    tasks the call has enqueued: not during the first [n] calls of
    [update()], and exactly once from call [n + 1] on. *)
Theorem callback_called_once_per_animate (g : Globals) (r : ref) (s s1 : Self)
    (properties : list (string * Q)) (n : nat) (f : fnref)
    (easing : option string) :
  Primitive_animate g properties (Z.of_nat n) (Fn f) easing s = Ret tt s1 ->
  animationBuffer (this s1) <> animationBuffer (this s) ->
  quiet g f (animationBuffer (this s)) ->
  f ∉ called (world s) ->
  fn_raises (code g f) = false ->
  Forall (fun a => Animation.callback a = Some f)
    (drop (length (animationBuffer (this s))) (animationBuffer (this s1)))
  /\ forall m, exists sm,
      updates g r m s1 = Ret tt sm
      /\ completions f (world sm)
         = (completions f (world s) + (if (m <=? n)%nat then 0 else 1))%nat.
Proof.
  intros Hanimate Hsome Hq Hf Hret.
  apply Primitive_animate_returns in Hanimate. subst s1.
  set (news := tasks_for (this s) properties (Z.of_nat n)
                 (callback_of (Fn f)) (easing_of (Fn f) easing)) in *.
  assert (Hc : cohort f news) by apply tasks_for_cohort.
  split.
  - cbn [enqueue this set_animationBuffer animationBuffer].
    by rewrite drop_app_length.
  - intros m.
    destruct (cohort_completes g f r n (animationBuffer (this s)) news
                (enqueue s news)) with (m := m) as (sm & E & C); try done.
    + unfold news. by rewrite tasks_for_at_frame.
    + intros Hnil. apply Hsome. rewrite Hnil.
      cbn [enqueue this set_animationBuffer animationBuffer].
      by rewrite app_nil_r.
    + by exists sm.
Qed.

Lemma callback_called_once_per_animate_witness :
  let s := origin_square (globals true) in
  exists s1,
    Primitive_animate (globals true) [("x", 5); ("y", 7)] (Z.of_nat 2)
      (Fn 7%nat) None s = Ret tt s1
    /\ Forall (fun a => Animation.callback a = Some 7%nat)
         (drop (length (animationBuffer (this s))) (animationBuffer (this s1)))
    /\ forall m, exists sm,
        updates (globals true) 0%nat m s1 = Ret tt sm
        /\ completions 7%nat (world sm)
           = (completions 7%nat (world s) + (if (m <=? 2)%nat then 0 else 1))%nat.
Proof.
  eexists. split; [reflexivity|].
  apply (callback_called_once_per_animate (globals true) 0%nat
           (origin_square (globals true)) _ [("x", 5); ("y", 7)] 2 7%nat None).
  - reflexivity.
  - discriminate.
  - apply Forall_nil_2.
  - apply (bool_decide_unpack _). vm_compute. reflexivity.
  - reflexivity.
Defined.

(** [animate({x: 5, y: 7}, 2, f)] on a square at the origin. *)
Definition x_and_y (g : Globals) : Self :=
  final (Primitive_animate g [("x", 5); ("y", 7)] 2 (Fn 7%nat) None
           (origin_square g)).

(** C4 as stated fails: two tasks are enqueued with the callback [7], and
    when both are done the callback has been called once, for the first
    of them; the second finds the flag on the callback and calls
    nothing. *)
Lemma shared_callback_called_once_for_two_tasks :
  let s1 := x_and_y (globals true) in
  let s4 := final (updates (globals true) 0%nat 4 s1) in
  map Animation.callback (animationBuffer (this s1)) = [Some 7%nat; Some 7%nat]
  /\ animationBuffer (this s4) = []
  /\ calls (world s4)
     = [ {| call_site := OnComplete; call_this := 0%nat; call_fn := 7%nat |} ]
  /\ completions 7%nat (world s4) = 1%nat.
Proof. by vm_compute. Qed.

(** ** Exceptions in a traversal *)

Lemma for_each_app {S A} (l1 l2 : list A) (body : A -> M S unit) (s : S) :
  for_each (l1 ++ l2) body s = (for_each l1 body ;; for_each l2 body) s.
Proof.
  revert s. induction l1 as [|x l1 IH]; intros s; [done|].
  cbn [app for_each]. unfold bind in *.
  destruct (body x s); [apply IH|done].
Qed.

(** A loop ends where its body throws. *)
Lemma for_each_stops {S A} (l1 l2 : list A) (x : A) (body : A -> M S unit)
    (s s1 s2 : S) (e : exn) :
  for_each l1 body s = Ret tt s1 ->
  body x s1 = Raise e s2 ->
  for_each (l1 ++ x :: l2) body s = Raise e s2.
Proof.
  intros H1 Hx. rewrite for_each_app. unfold bind. rewrite H1.
  cbn [for_each]. unfold bind. by rewrite Hx.
Qed.

(** What a step leaves of the engine and of the other objects. *)
Definition engine_of (c : Chart) : bool * nat := (running c, requested c).

Definition keeps_engine {A} (m : M Chart A) : Prop :=
  forall c, engine_of (final (m c)) = engine_of c.

Lemma keeps_engine_bind {A B} (m : M Chart A) (k : A -> M Chart B) :
  keeps_engine m -> (forall a, keeps_engine (k a)) -> keeps_engine (bind m k).
Proof.
  intros Hm Hk c. unfold bind. specialize (Hm c).
  destruct (m c) as [a c'|e c']; [|done]. rewrite <- Hm. apply Hk.
Qed.

Lemma keeps_engine_for_each {A} (l : list A) (body : A -> M Chart unit) :
  (forall x, keeps_engine (body x)) -> keeps_engine (for_each l body).
Proof.
  intros Hbody. induction l as [|x l IH]; [done|].
  cbn [for_each]. by apply keeps_engine_bind.
Qed.

Lemma keeps_engine_on_object {A} (r : ref) (m : M Self A) :
  keeps_engine (on_object r m).
Proof. intros c. unfold on_object. by destruct (m _). Qed.

Lemma keeps_engine_fire g name r : keeps_engine (fire g name r).
Proof.
  intros c. unfold fire, bind, get.
  destruct (assoc _ _); [apply keeps_engine_on_object|done].
Qed.

Lemma objectsUnder_loop_final g c x y todo acc :
  final (objectsUnder_loop g c x y todo acc) = c.
Proof.
  revert acc. induction todo as [|r todo IH]; intros acc; [done|].
  cbn [objectsUnder_loop]. destruct (isInside _) as [inside|]; [|done].
  by destruct (inside _ _ _).
Qed.

(** The query changes nothing, whether it returns or raises. *)
Lemma Registry_objectsUnder_final g x y c :
  final (Registry_objectsUnder g x y c) = c.
Proof. apply objectsUnder_loop_final. Qed.

Lemma keeps_engine_objectsUnder g x y :
  keeps_engine (Registry_objectsUnder g x y).
Proof. intros c. by rewrite Registry_objectsUnder_final. Qed.

Lemma keeps_engine_hover_enter g r : keeps_engine (hover_enter g r).
Proof.
  unfold hover_enter. apply keeps_engine_bind; [done|]. intros c.
  destruct (negb _); [|apply keeps_engine_fire].
  apply keeps_engine_bind; [apply keeps_engine_fire|]. intros _.
  apply keeps_engine_bind; [apply keeps_engine_on_object|done].
Qed.

Lemma keeps_engine_hover_leave g current todo :
  forall _buffer, keeps_engine (hover_leave g current todo _buffer).
Proof.
  induction todo as [|r todo IH]; intros _buffer; [done|].
  cbn [hover_leave]. destruct (Z.eqb _ _); [|apply IH].
  apply keeps_engine_bind; [apply keeps_engine_fire|]. intros _.
  apply keeps_engine_bind; [apply keeps_engine_on_object|]. intros _.
  apply IH.
Qed.

Lemma keeps_engine_dispatch_hover g : keeps_engine (dispatch_hover g).
Proof.
  unfold dispatch_hover. apply keeps_engine_bind; [done|]. intros c.
  apply keeps_engine_bind; [apply keeps_engine_objectsUnder|].
  intros current.
  apply keeps_engine_bind;
    [apply keeps_engine_for_each, keeps_engine_hover_enter|].
  intros _. apply keeps_engine_bind; [done|]. intros c1.
  apply keeps_engine_bind; [apply keeps_engine_hover_leave|].
  intros _buffer. by apply keeps_engine_bind.
Qed.

Lemma keeps_engine_Registry_update g : keeps_engine (Registry_update g).
Proof.
  unfold Registry_update. apply keeps_engine_bind; [done|]. intros c.
  apply keeps_engine_for_each. intros r. apply keeps_engine_on_object.
Qed.

Lemma keeps_engine_Registry_render g : keeps_engine (Registry_render g).
Proof.
  unfold Registry_render. apply keeps_engine_bind; [done|]. intros c.
  apply keeps_engine_for_each. intros r. apply keeps_engine_on_object.
Qed.

Lemma keeps_engine_Aristochart_update g : keeps_engine (Aristochart_update g).
Proof.
  unfold Aristochart_update. apply keeps_engine_bind; [done|]. intros c.
  apply keeps_engine_bind; [|intros _; apply keeps_engine_Registry_update].
  destruct (moved c); [apply keeps_engine_dispatch_hover|done].
Qed.

(** A tick of a running engine has requested the next one by its end,
    however it ends. *)
Lemma tick_requests_next g c :
  running c = true ->
  engine_of (final (tick g c)) = (true, S (requested c)).
Proof.
  intros Hrun. unfold tick. unfold bind at 1, get. rewrite Hrun.
  unfold bind at 1. cbn [requestAnimFrame modify].
  assert (Hk : keeps_engine (Aristochart_update g ;; Aristochart_render g)).
  { apply keeps_engine_bind; [apply keeps_engine_Aristochart_update|].
    intros _. apply keeps_engine_Registry_render. }
  rewrite Hk. unfold engine_of. cbn [set_requested running requested].
  by rewrite Hrun.
Qed.

(** A method run on [r] leaves the other objects alone. *)
Lemma on_object_others {A} (r r' : ref) (m : M Self A) (c : Chart) :
  r' <> r -> objects (final (on_object r m c)) !! r' = objects c !! r'.
Proof.
  intros Hne. unfold on_object.
  destruct (m _); cbn [final set_objects objects]; by rewrite lookup_insert_ne.
Qed.

Lemma for_each_on_object_others (method : ref -> M Self unit) (l : list ref)
    (r' : ref) :
  forall c, r' ∉ l ->
  objects (final (for_each l (fun r => on_object r (method r)) c)) !! r'
  = objects c !! r'.
Proof.
  induction l as [|r l IH]; intros c Hr'; [done|].
  apply not_elem_of_cons in Hr' as [Hne Hr'].
  cbn [for_each]. unfold bind.
  pose proof (on_object_others r r' (method r) c Hne) as Hstep.
  destruct (on_object r (method r) c) as [[] c1|e c1];
    cbn [final] in Hstep |- *; [|done].
  by rewrite IH.
Qed.

(** A traversal from the last index down that meets a method that
    throws at [r]: it ends there, with the exception, and the primitives
    in front of [r] are as they were. *)
Lemma traversal_stops (method : ref -> M Self unit) (c c1 c2 : Chart)
    (before after : list ref) (r : ref) (e : exn) :
  registry c = before ++ r :: after ->
  for_each (rev after) (fun r => on_object r (method r)) c = Ret tt c1 ->
  on_object r (method r) c1 = Raise e c2 ->
  for_each (rev (registry c)) (fun r => on_object r (method r)) c = Raise e c2
  /\ forall r', r' ∈ before -> r' ∉ r :: after ->
       objects c2 !! r' = objects c !! r'.
Proof.
  intros Hreg Hafter Hr. split.
  - rewrite Hreg, rev_app_distr. cbn [rev]. rewrite <- app_assoc.
    by apply for_each_stops with (s1 := c1).
  - intros r' _ Hr'. apply not_elem_of_cons in Hr' as [Hne Hr'].
    pose proof (on_object_others r r' (method r) c1 Hne) as H2.
    rewrite Hr in H2. cbn [final] in H2. rewrite H2.
    pose proof (for_each_on_object_others method (rev after) r' c) as H1.
    rewrite Hafter in H1. cbn [final] in H1. apply H1.
    rewrite list_elem_of_In, <- in_rev, <- list_elem_of_In. done.
Qed.

(** C9 as amended.  Nothing catches an exception raised inside a
    primitive's [update] or [render]: the traversal of the registry, which
    runs from the last entry to the first, ends at that primitive with the
    exception, the primitives in front of it are not visited, and the
    exception leaves [Aristochart.prototype.update].  The tick of a
    running engine requests the next tick before it does its work, so the
    next tick is requested however the tick ends. *)
Theorem exception_ends_traversal (g : Globals) (c : Chart)
    (before after : list ref) (r : ref) :
  registry c = before ++ r :: after ->
  (forall c1 c2 e,
      for_each (rev after) (fun r => on_object r (Primitive_update g r)) c
      = Ret tt c1 ->
      on_object r (Primitive_update g r) c1 = Raise e c2 ->
      Registry_update g c = Raise e c2
      /\ (moved c = false -> Aristochart_update g c = Raise e c2)
      /\ forall r', r' ∈ before -> r' ∉ r :: after ->
           objects c2 !! r' = objects c !! r')
  /\ (forall c1 c2 e,
         for_each (rev after) (fun r => on_object r (Primitive_render g r)) c
         = Ret tt c1 ->
         on_object r (Primitive_render g r) c1 = Raise e c2 ->
         Registry_render g c = Raise e c2
         /\ forall r', r' ∈ before -> r' ∉ r :: after ->
              objects c2 !! r' = objects c !! r')
  /\ (running c = true ->
      engine_of (final (tick g c)) = (true, S (requested c))).
Proof.
  intros Hreg. split; [|split].
  - intros c1 c2 e Hafter Hr.
    destruct (traversal_stops (Primitive_update g) c c1 c2 before after r e)
      as [Hstop Hothers]; try done.
    assert (Hupdate : Registry_update g c = Raise e c2) by done.
    split; [done|]. split; [|done].
    intros Hmoved. unfold Aristochart_update, bind, get.
    rewrite Hmoved. exact Hupdate.
  - intros c1 c2 e Hafter Hr.
    by destruct (traversal_stops (Primitive_render g) c c1 c2 before after r e).
  - apply tick_requests_next.
Qed.

(** A square whose render function throws. *)
Definition faulty_class : PrimitiveClass :=
  {| style := None;
     obj := {| render := Some 13%nat; isInside := Some square_inside;
               getBoundingBox := None; init := None; events := None |};
     canvas := VObj; ctx := VObj |}.

(** Two registered squares.  The first animates its [x] over three
    frames; the second has a task that is done and whose callback throws,
    and its render function throws. *)
Definition stuck_chart (g : Globals) : M Chart (ref * ref) :=
  a <- construct g (square_class None) (at_xy 0 0) ;;
  b <- construct g faulty_class (at_xy 50 50) ;;
  Registry_add (inr [a; b]) ;;
  on_object a (Primitive_animate g [("x", 5)] 3 NoCallback None) ;;
  on_object b (Primitive_animate g [("x", 5)] 0 (Fn 13%nat) None) ;;
  modify (fun c => set_running c true) ;;
  ret (a, b).

Lemma exception_ends_traversal_witness :
  let g := globals true in
  let c := final (stuck_chart g Chart_empty) in
  registry c = [0%nat; 1%nat]
  /\ (exists c2,
         Registry_update g c = Raise (Thrown 13%nat) c2
         /\ Aristochart_update g c = Raise (Thrown 13%nat) c2
         /\ objects c2 !! 0%nat = objects c !! 0%nat)
  /\ (exists c2,
         Registry_render g c = Raise (Thrown 13%nat) c2
         /\ objects c2 !! 0%nat = objects c !! 0%nat)
  /\ engine_of (final (tick g c)) = (true, 1%nat).
Proof.
  intros g c.
  destruct (exception_ends_traversal g c [0%nat] [] 1%nat eq_refl)
    as (Hupdate & Hrender & Htick).
  split; [reflexivity|]. split; [|split].
  - destruct (Hupdate c (final (on_object 1%nat (Primitive_update g 1%nat) c))
                (Thrown 13%nat) eq_refl eq_refl) as (H1 & H2 & H3).
    eexists. split; [exact H1|]. split; [exact (H2 eq_refl)|].
    apply H3; apply (bool_decide_unpack _); vm_compute; reflexivity.
  - destruct (Hrender c (final (on_object 1%nat (Primitive_render g 1%nat) c))
                (Thrown 13%nat) eq_refl eq_refl) as (H1 & H2).
    eexists. split; [exact H1|].
    apply H2; apply (bool_decide_unpack _); vm_compute; reflexivity.
  - exact (Htick eq_refl).
Defined.

(** C9 as stated fails: the second square's [update] throws, the
    traversal ends there, and the first square, next in the traversal, is
    not updated: its task has its three frames and its [x] is [0]; the
    same holds of [render], after which the first square's render
    function has not run. *)
Lemma exception_in_update_halts_traversal :
  let g := globals true in
  let c := final (stuck_chart g Chart_empty) in
  let after_update := final (Registry_update g c) in
  let after_render := final (Registry_render g c) in
  registry c = [0%nat; 1%nat]
  /\ raised (Registry_update g c) = Some (Thrown 13%nat)
  /\ map Animation.frame (animationBuffer (objects after_update !!! 0%nat))
     = [3%Z]
  /\ get_prop (objects after_update !!! 0%nat) "x" = VNum 0
  /\ raised (Registry_render g c) = Some (Thrown 13%nat)
  /\ calls (shared after_render)
     = [ {| call_site := OnRender; call_this := 1%nat; call_fn := 13%nat |} ].
Proof. by vm_compute. Qed.

(** ** The pointer dispatcher *)

(** The call a primitive's handler for [name] gets, if it has one. *)
Definition handler_calls (c : Chart) (name : string) (r : ref) : list Call :=
  match assoc (events_of (objects c !!! r)) name with
  | Some f => [ {| call_site := OnEvent name; call_this := r; call_fn := f |} ]
  | None => []
  end.


(** What the steps of the dispatcher leave alone: the registry, the
    coordinates, and the class of every object. *)
Definition steady (c c' : Chart) : Prop :=
  registry c' = registry c
  /\ mouseX c' = mouseX c /\ mouseY c' = mouseY c
  /\ _mouseX c' = _mouseX c /\ _mouseY c' = _mouseY c
  /\ forall r, class (objects c' !!! r) = class (objects c !!! r).

Lemma steady_refl c : steady c c.
Proof. by repeat split. Qed.










Lemma flat_map_eq_on {A B} (f f' : A -> list B) (l : list A) :
  (forall x, x ∈ l -> f x = f' x) -> flat_map f l = flat_map f' l.
Proof.
  induction l as [|x l IH]; intros Hf; [done|]. cbn [flat_map].
  rewrite (Hf x) by apply list_elem_of_here.
  rewrite IH; [done|]. intros y Hy. apply Hf. by apply list_elem_of_further.
Qed.


















(** A square with handlers for the three hover events and an axis, as the
    line chart registers its points and its axes; the pointer goes to the
    centre of the square. *)
Definition pointer_on_square (g : Globals) : M Chart (ref * ref) :=
  a <- construct g
         (square_class (Some [ ("mouseover", 21%nat); ("mousemove", 22%nat);
                               ("mouseout", 23%nat) ]))
         (at_xy 0 0) ;;
  b <- construct g axis_class (at_xy 0 0) ;;
  Registry_add (inr [a; b]) ;;
  on_mousemove 0 0 ;;
  ret (a, b).

(** C3, at a registry that holds a primitive without [isInside]: the
    pointer has moved onto the square, which is not in the hover buffer,
    so that its ["mouseover"] handler is due; the tick raises a
    [TypeError] instead, whatever [DEBUG] is, and leaves the chart as it
    was: no handler has been called, the hover buffer is still empty, and
    the pointer still counts as moved, so that the next tick does the
    same. *)
Theorem moved_tick_raises_without_isInside (debug : bool) :
  exists a b c,
    pointer_on_square (globals debug) Chart_empty = Ret (a, b) c
    /\ registry c = [a; b]
    /\ moved c = true
    /\ mouseBuffer c = []
    /\ hit (globals debug) c (mouseX c) (mouseY c) a = true
    /\ handler_calls c "mouseover" a
       = [ {| call_site := OnEvent "mouseover"; call_this := a;
              call_fn := 21%nat |} ]
    /\ hit_testable c b = false
    /\ Aristochart_update (globals debug) c
       = Raise (TypeError "primitive.isInside is not a function") c.
Proof.
  destruct debug; eexists _, _, _;
    (split; [vm_compute; reflexivity|]); by vm_compute.
Qed.








(** Three squares with handlers for the three hover events; the first two
    overlap.  The pointer goes to a point of both, a tick runs, and the
    pointer goes on to a point of the second only. *)
Definition hover_handlers (n : nat) : option (list (string * fnref)) :=
  Some [ ("mouseover", (10 * n + 1)%nat); ("mousemove", (10 * n + 2)%nat);
         ("mouseout", (10 * n + 3)%nat) ].

Definition second_move (g : Globals) : M Chart unit :=
  a <- construct g (square_class (hover_handlers 2)) (at_xy 0 0) ;;
  b <- construct g (square_class (hover_handlers 3)) (at_xy 3 3) ;;
  d <- construct g (square_class (hover_handlers 4)) (at_xy 50 50) ;;
  Registry_add (inr [a; b; d]) ;;
  on_mousemove 1 1 ;;
  dispatch_hover g ;;
  on_mousemove 7 7.


(** The run of the theorem's witness, by evaluation: the first tick calls
    the ["mouseover"] handlers of the two squares under the pointer, the
    second the ["mousemove"] handler of the square that stays and the
    ["mouseout"] handler of the square that is left. *)
Lemma hover_run :
  let g := globals true in
  let c := final (second_move g Chart_empty) in
  let c' := final (dispatch_hover g c) in
  mouseBuffer c = [0%nat; 1%nat]
  /\ map call_fn (calls (shared c)) = [21%nat; 31%nat]
  /\ mouseBuffer c' = [1%nat]
  /\ map call_fn (calls (shared c')) = [21%nat; 31%nat; 32%nat; 23%nat].
Proof. by vm_compute. Qed.

(** The flag is a property like the others: a square whose [data] names
    [_mouseover] counts as hovered from the start, so that the first tick
    with the pointer on it calls its ["mousemove"] handler and does not
    put it into the hover buffer. *)
Definition hovered_by_data (g : Globals) : M Chart unit :=
  a <- construct g (square_class (hover_handlers 2))
         (Some (<["_mouseover" := VBool true]> (<["x" := VNum 0]>
                 (<["y" := VNum 0]> ∅)))) ;;
  Registry_add (inl a) ;;
  on_mousemove 1 1 ;;
  dispatch_hover g.

Lemma data_sets_mouseover :
  let c := final (hovered_by_data (globals true) Chart_empty) in
  raised (hovered_by_data (globals true) Chart_empty) = None
  /\ map call_fn (calls (shared c)) = [22%nat]
  /\ mouseBuffer c = [].
Proof. by vm_compute. Qed.

(** * Further properties of the code *)

(** ** The registry *)

(** X1.  [remove] of a primitive that is registered deletes its first
    occurrence and nothing else: the entries before and after it keep
    their order, and a second occurrence stays. *)
Theorem remove_deletes_first_occurrence (c : Chart) (l1 l2 : list ref)
    (x : ref) :
  registry c = l1 ++ x :: l2 -> x ∉ l1 ->
  Registry_remove x c = Ret tt (set_registry c (l1 ++ l2)).
Proof. apply Registry_remove_present. Qed.

Lemma remove_deletes_first_occurrence_witness :
  Registry_remove 7%nat (set_registry Chart_empty [3; 7; 5; 7]%nat)
  = Ret tt (set_registry (set_registry Chart_empty [3; 7; 5; 7]%nat)
              ([3%nat] ++ [5; 7]%nat)).
Proof.
  apply (remove_deletes_first_occurrence
           (set_registry Chart_empty [3; 7; 5; 7]%nat) [3%nat] [5; 7]%nat 7%nat).
  - reflexivity.
  - apply (bool_decide_unpack _). vm_compute. reflexivity.
Defined.

(** X2.  [remove] of a primitive that is not registered raises nothing
    and deletes the last entry of the registry, whatever it is; only an
    empty registry is left as it was. *)
Theorem remove_unregistered_deletes_last (c : Chart) (x : ref) :
  x ∉ registry c ->
  Registry_remove x c = Ret tt (set_registry c (removelast (registry c)))
  /\ (registry c <> [] ->
      length (registry (final (Registry_remove x c)))
      = pred (length (registry c)))
  /\ (registry c = [] -> registry (final (Registry_remove x c)) = []).
Proof.
  intros Hx. rewrite Registry_remove_absent by done.
  split; [done|]. cbn [final set_registry registry]. split.
  - intros Hne. destruct (registry c) as [|y l] using rev_ind; [done|].
    rewrite removelast_last, length_app. simpl. lia.
  - by intros ->.
Qed.

Lemma remove_unregistered_deletes_last_witness :
  let c := set_registry Chart_empty [3; 7; 5]%nat in
  Registry_remove 9%nat c = Ret tt (set_registry c (removelast (registry c)))
  /\ (registry c <> [] ->
      length (registry (final (Registry_remove 9%nat c)))
      = pred (length (registry c)))
  /\ (registry c = [] -> registry (final (Registry_remove 9%nat c)) = []).
Proof.
  apply (remove_unregistered_deletes_last
           (set_registry Chart_empty [3; 7; 5]%nat) 9%nat).
  apply (bool_decide_unpack _). vm_compute. reflexivity.
Defined.

(** X3.  [add(p)] followed by [remove(p)], for a primitive that was not
    registered before, gives the registry back as it was. *)
Theorem add_then_remove_restores (c : Chart) (p : ref) :
  p ∉ registry c ->
  exists c',
    (Registry_add (inl p) ;; Registry_remove p) c = Ret tt c'
    /\ registry c' = registry c.
Proof.
  intros Hp. unfold bind. cbn [Registry_add modify].
  rewrite (Registry_remove_present _ (registry c) [] p); [|done|done].
  eexists. split; [done|]. cbn [set_registry registry]. by rewrite app_nil_r.
Qed.

Lemma add_then_remove_restores_witness :
  exists c',
    (Registry_add (inl 9%nat) ;; Registry_remove 9%nat)
      (set_registry Chart_empty [3; 7; 5]%nat) = Ret tt c'
    /\ registry c' = registry (set_registry Chart_empty [3; 7; 5]%nat).
Proof.
  apply (add_then_remove_restores (set_registry Chart_empty [3; 7; 5]%nat)
           9%nat).
  apply (bool_decide_unpack _). vm_compute. reflexivity.
Defined.



(** X5.  Where a registered primitive has no [isInside], the query raises
    a [TypeError] at every point, also at points no primitive is under,
    and it returns nothing of what it found before; the chart is left as
    it was. *)
Theorem objectsUnder_raises_at_every_point (g : Globals) (c : Chart)
    (x y : Q) (r : ref) :
  r ∈ registry c -> hit_testable c r = false ->
  Registry_objectsUnder g x y c
  = Raise (TypeError "primitive.isInside is not a function") c.
Proof.
  intros Hr Hno. unfold Registry_objectsUnder. generalize (@nil ref).
  induction (registry c) as [|r' l IH]; intros acc.
  - by apply elem_of_nil in Hr.
  - cbn [objectsUnder_loop].
    destruct (isInside (obj (class (objects c !!! r')))) as [inside|] eqn:Hi;
      [|done].
    apply elem_of_cons in Hr as [->|Hr].
    + unfold hit_testable in Hno. by rewrite Hi in Hno.
    + by destruct (inside _ _ _); apply IH.
Qed.

Lemma objectsUnder_raises_at_every_point_witness :
  let g := globals true in
  let c := final (square_and_axis g Chart_empty) in
  Registry_objectsUnder g 1000 1000 c
  = Raise (TypeError "primitive.isInside is not a function") c.
Proof.
  intros g c. apply (objectsUnder_raises_at_every_point g c 1000 1000 1%nat).
  - apply (bool_decide_unpack _). vm_compute. reflexivity.
  - reflexivity.
Defined.

(** ** The click listener *)



(** Two overlapping squares with click handlers, and a third elsewhere. *)
Definition click_handlers (n : nat) : option (list (string * fnref)) :=
  Some [ ("click", n) ].

Definition overlapping (g : Globals) : M Chart unit :=
  a <- construct g (square_class (click_handlers 21)) (at_xy 0 0) ;;
  b <- construct g (square_class (click_handlers 22)) (at_xy 3 3) ;;
  d <- construct g (square_class (click_handlers 23)) (at_xy 50 50) ;;
  Registry_add (inr [a; b; d]).


(** The run of the witness: both squares under the point are called,
    first the one registered first. *)
Lemma click_run :
  let g := globals true in
  let c := final (overlapping g Chart_empty) in
  map call_fn (calls (shared (final (on_click g 1 1 c)))) = [21%nat; 22%nat].
Proof. by vm_compute. Qed.

(** ** What [animate] and [update] do to the queue *)

(** X7.  [animate] does nothing but enqueue: however the call ends, it
    has written no property, called no function and marked no callback;
    the queue is the old queue with some tasks behind it. *)
Theorem animate_only_enqueues (g : Globals) (s : Self)
    (properties : list (string * Q)) (frames : Z) (callback : CallbackArg)
    (easing : option string) :
  exists added,
    final (Primitive_animate g properties frames callback easing s)
    = enqueue s added.
Proof.
  rewrite Primitive_animate_test.
  destruct (DEBUG g) eqn:Hd; cbn [andb].
  - destruct (easing_truthy _ && _).
    + exists []. by rewrite enqueue_nil.
    + eexists. by apply animate_loop_on.
  - eexists. by rewrite animate_loop_off.
Qed.





(** ** The throttle *)

(** The trace of [s'] is the trace of [s] followed by calls that all are
    of the kind [P]. *)
Definition traces_only (P : Site -> Prop) (w w' : World) : Prop :=
  exists added, calls w' = calls w ++ added
                /\ Forall (fun call => P (call_site call)) added.

Lemma traces_only_refl P w : traces_only P w w.
Proof. exists []. by rewrite app_nil_r. Qed.

Lemma traces_only_trans P w1 w2 w3 :
  traces_only P w1 w2 -> traces_only P w2 w3 -> traces_only P w1 w3.
Proof.
  intros (a1 & E1 & F1) (a2 & E2 & F2). exists (a1 ++ a2).
  split; [by rewrite E2, E1, app_assoc|]. by apply Forall_app.
Qed.

Definition is_OnComplete (site : Site) : Prop := site = OnComplete.

Lemma update_task_traces g r i a s :
  traces_only is_OnComplete (world s) (world (final (update_task g r i a s))).
Proof.
  unfold update_task. destruct (negb _); [apply traces_only_refl|].
  destruct (Animation.callback a) as [f|]; [|apply traces_only_refl].
  unfold bind, get. case_bool_decide; [apply traces_only_refl|].
  unfold invoke. destruct (fn_raises _);
    cbn [final mark_called modify ret world calls];
    (eexists; split; [done|]; by apply Forall_singleton).
Qed.

Lemma update_tasks_traces g r todo :
  forall i s,
    traces_only is_OnComplete (world s)
      (world (final (update_tasks g r i todo s))).
Proof.
  induction todo as [|a todo IH]; intros i s; [apply traces_only_refl|].
  cbn [update_tasks]. unfold bind.
  pose proof (update_task_traces g r i a s) as H1.
  destruct (update_task g r i a s) as [kept s1|e s1]; [|done].
  cbn [final] in H1. pose proof (IH (S i) s1) as H2.
  destruct (update_tasks g r (S i) todo s1) as [more s2|e s2];
    cbn [final ret] in *; by eapply traces_only_trans.
Qed.

Lemma Primitive_update_traces g r s :
  traces_only is_OnComplete (world s) (world (final (Primitive_update g r s))).
Proof.
  rewrite Primitive_update_tasks. unfold bind.
  pose proof (update_tasks_traces g r (animationBuffer (this s)) 0 s) as H.
  by destruct (update_tasks g r 0 (animationBuffer (this s)) s).
Qed.

Lemma Registry_update_traces g (l : list ref) :
  forall c,
    traces_only is_OnComplete (shared c)
      (shared (final (for_each l (fun r => on_object r (Primitive_update g r)) c))).
Proof.
  induction l as [|r l IH]; intros c; [apply traces_only_refl|].
  cbn [for_each]. unfold bind.
  assert (H1 : traces_only is_OnComplete (shared c)
                 (shared (final (on_object r (Primitive_update g r) c)))).
  { unfold on_object.
    pose proof (Primitive_update_traces g r
                  {| this := objects c !!! r; world := shared c |}) as H.
    by destruct (Primitive_update g r _). }
  destruct (on_object r (Primitive_update g r) c) as [[] c1|e c1]; [|done].
  cbn [final] in H1. eapply traces_only_trans; [exact H1|apply IH].
Qed.

(** X9.  A tick on which the pointer has not moved runs no query and no
    event handler: [Aristochart.prototype.update] is then the registry's
    [update], a registered primitive without [isInside] raises nothing,
    and the only functions called are completion callbacks. *)
Theorem unmoved_pointer_dispatches_nothing (g : Globals) (c : Chart) :
  moved c = false ->
  Aristochart_update g c = Registry_update g c
  /\ traces_only is_OnComplete (shared c)
       (shared (final (Aristochart_update g c)))
  /\ mouseBuffer (final (Aristochart_update g c)) = mouseBuffer c.
Proof.
  intros Hmoved.
  assert (E : Aristochart_update g c = Registry_update g c).
  { unfold Aristochart_update, bind, get. by rewrite Hmoved. }
  rewrite E. split; [done|]. split.
  - apply Registry_update_traces.
  - unfold Registry_update, bind, get. generalize (rev (registry c)).
    intros l. generalize c. clear. induction l as [|r l IH]; intros c; [done|].
    cbn [for_each]. unfold bind.
    assert (H1 : mouseBuffer (final (on_object r (Primitive_update g r) c))
                 = mouseBuffer c)
      by (unfold on_object; by destruct (Primitive_update g r _)).
    destruct (on_object r (Primitive_update g r) c) as [[] c1|e c1]; [|done].
    cbn [final] in H1. by rewrite IH.
Qed.

Lemma unmoved_pointer_dispatches_nothing_witness :
  let g := globals true in
  let c := final (square_and_axis g Chart_empty) in
  Aristochart_update g c = Registry_update g c
  /\ traces_only is_OnComplete (shared c)
       (shared (final (Aristochart_update g c)))
  /\ mouseBuffer (final (Aristochart_update g c)) = mouseBuffer c.
Proof.
  intros g c. apply (unmoved_pointer_dispatches_nothing g c). reflexivity.
Defined.

(** ** The factory and [render] *)

(** X10.  With [DEBUG] on, [Aristochart.Primitive] returns a constructor
    only for an [obj] that has a render function and that, if it has
    events, has an [isInside] as well; it raises otherwise, and in either
    case changes nothing. *)
Theorem factory_checks_definition {S} (g : Globals) (style : option Props)
    (o : PrimitiveObj) (cv cx : value) (s : S) :
  DEBUG g = true ->
  if present (render o) && (negb (present (events o)) || present (isInside o))
  then Aristochart_Primitive g style o cv cx s
       = Ret {| style := style; obj := o; canvas := cv; ctx := cx |} s
  else exists msg,
      Aristochart_Primitive g style o cv cx s = Raise (AristochartError msg) s.
Proof.
  intros Hd. unfold Aristochart_Primitive, bind, Aristochart_Error.
  rewrite Hd.
  destruct (present (render o)), (present (events o)), (present (isInside o));
    cbn [negb andb orb raise ret]; eauto.
Qed.

Lemma factory_checks_definition_witness :
  (exists msg,
      Aristochart_Primitive (globals true) None
        {| render := Some 1%nat; isInside := None; getBoundingBox := None;
           init := None; events := Some [("click", 5%nat)] |} VObj VObj tt
      = Raise (AristochartError msg) tt)
  /\ Aristochart_Primitive (globals true) None (obj axis_class) VObj VObj tt
     = Ret axis_class tt.
Proof.
  split.
  - exact (factory_checks_definition (globals true) None
             {| render := Some 1%nat; isInside := None; getBoundingBox := None;
                init := None; events := Some [("click", 5%nat)] |}
             VObj VObj tt eq_refl).
  - exact (factory_checks_definition (globals true) None (obj axis_class)
             VObj VObj tt eq_refl).
Defined.

(** X11.  An instance of a class that was defined without a render
    function, which the factory accepts with [DEBUG] off, cannot be
    rendered: [render()] raises a [TypeError], calls nothing and changes
    nothing. *)
Theorem render_without_render_function (g : Globals) (r : ref) (s : Self) :
  render (obj (class (this s))) = None ->
  exists msg, Primitive_render g r s = Raise (TypeError msg) s.
Proof.
  intros Hnone. unfold Primitive_render, bind, get. rewrite Hnone.
  destruct (get_prop (this s) "ctx"); by eexists.
Qed.

(** A class without render function, as the factory returns it with
    [DEBUG] off. *)
Definition blank_class : PrimitiveClass :=
  {| style := None;
     obj := {| render := None; isInside := None; getBoundingBox := None;
               init := None; events := None |};
     canvas := VObj; ctx := VObj |}.

Lemma render_without_render_function_witness :
  let g := globals false in
  let c := final (construct g blank_class (at_xy 0 0) Chart_empty) in
  Aristochart_Primitive g None (obj blank_class) VObj VObj tt
  = Ret blank_class tt
  /\ exists msg,
      Primitive_render g 0%nat (self_of c 0%nat)
      = Raise (TypeError msg) (self_of c 0%nat).
Proof.
  intros g c. split; [reflexivity|].
  apply (render_without_render_function g 0%nat (self_of c 0%nat)).
  reflexivity.
Defined.

(** ** The course of an animation *)

(** X12.  Between its first and its last frame an animation with the
    default easing follows the curve of [easeInQuad]: after [m] calls of
    [update()], [m] from [1] to [n], the property is
    [current + (target - current) * (m / n) * (m / n)].  (The conditions
    are those of C1.) *)
Theorem default_easing_curve (g : Globals) (r : ref) (s : Self) (p : string)
    (current target : Q) (n m : nat) (f : fnref) :
  get_prop (this s) p = VNum current ->
  (0 < m <= n)%nat ->
  quiet g f (animationBuffer (this s)) ->
  exists s1 sm v,
    Primitive_animate g [(p, target)] (Z.of_nat n) (Fn f) None s = Ret tt s1
    /\ updates g r m s1 = Ret tt sm
    /\ get_prop (this sm) p = VNum v
    /\ v == current
            + (target - current)
              * (inject_Z (Z.of_nat m) / inject_Z (Z.of_nat n))
              * (inject_Z (Z.of_nat m) / inject_Z (Z.of_nat n)).
Proof.
  intros Hp Hm Hq.
  set (t := task p current target (Z.of_nat n) (Some f) NoEasing).
  assert (Hbuf : animationBuffer (this (enqueue s [t]))
                 = animationBuffer (this s) ++ map (at_frame (Z.of_nat n)) [t])
    by done.
  destruct (run_running g f r [t] m _ _ _ Hbuf ltac:(lia) Hq)
    as (buf' & sm & E & _ & _ & _ & _ & P).
  specialize (P [] t ltac:(lia) eq_refl).
  change (Animation.property t) with p in P.
  exists (enqueue s [t]), sm, (eased g t (Z.of_nat n - Z.of_nat m + 1)).
  split.
  { rewrite Primitive_animate_test. cbn [easing_of easing_truthy andb].
    by rewrite andb_false_r, animate_loop_cons, Hp. }
  split; [done|]. split; [unfold get_prop; by rewrite P|].
  unfold eased, t, task.
  cbn [Animation.initialValue Animation.easing Animation.length
       Animation.range easing_or_default easing_key].
  replace (Z.of_nat n - (Z.of_nat n - Z.of_nat m + 1) + 1)%Z
    with (Z.of_nat m) by lia.
  change (Easing_fn (host g) (easing_or_default NoEasing)) with easeInQuad_fn.
  unfold easeInQuad_fn, Qdiv. cbv zeta. ring.
Qed.

Lemma default_easing_curve_witness :
  exists s1 sm v,
    Primitive_animate (globals true) [("x", 100)] (Z.of_nat 10) (Fn 7%nat) None
      (origin_square (globals true)) = Ret tt s1
    /\ updates (globals true) 0%nat 5 s1 = Ret tt sm
    /\ get_prop (this sm) "x" = VNum v
    /\ v == 0 + (100 - 0)
              * (inject_Z (Z.of_nat 5) / inject_Z (Z.of_nat 10))
              * (inject_Z (Z.of_nat 5) / inject_Z (Z.of_nat 10)).
Proof.
  apply (default_easing_curve (globals true) 0%nat
           (origin_square (globals true)) "x" 0 100 10 5 7%nat).
  - reflexivity.
  - lia.
  - apply Forall_nil_2.
Defined.

(** Calls of [update()] on tasks whose frame count is negative. *)
Lemma run_endless g f r news m :
  forall z buf s,
    animationBuffer (this s) = buf ++ map (at_frame z) news ->
    (z < 0)%Z -> quiet g f buf ->
    exists buf' s',
      updates g r m s = Ret tt s'
      /\ animationBuffer (this s') = buf' ++ map (at_frame (z - Z.of_nat m)) news
      /\ quiet g f buf'
      /\ completions f (world s') = completions f (world s).
Proof.
  induction m as [|m IH]; intros z buf s Hbuf Hz Hq.
  - exists buf, s. cbn [updates ret]. rewrite Z.sub_0_r. split_all; done.
  - destruct (step_running g f r z buf news s Hbuf ltac:(lia) Hq)
      as (buf1 & s1 & E1 & B1 & Q1 & C1 & _).
    destruct (IH (z - 1)%Z buf1 s1 B1 ltac:(lia) Q1)
      as (buf2 & s2 & E2 & B2 & Q2 & C2).
    exists buf2, s2. cbn [updates]. unfold bind. rewrite E1, E2.
    replace (z - Z.of_nat (S m))%Z with (z - 1 - Z.of_nat m)%Z by lia.
    split_all; try done. congruence.
Qed.

(** X13.  An animation started with a negative frame count never ends:
    every call of [update()] returns, the task stays in the queue with one
    frame less, and its callback is never called. *)
Theorem negative_frames_never_complete (g : Globals) (r : ref) (s : Self)
    (p : string) (current target : Q) (frames : Z) (f : fnref) (m : nat) :
  get_prop (this s) p = VNum current ->
  (frames < 0)%Z ->
  quiet g f (animationBuffer (this s)) ->
  exists s1 sm queued,
    Primitive_animate g [(p, target)] frames (Fn f) None s = Ret tt s1
    /\ updates g r m s1 = Ret tt sm
    /\ animationBuffer (this sm)
       = queued ++ [at_frame (frames - Z.of_nat m)
                      (task p current target frames (Some f) NoEasing)]
    /\ completions f (world sm) = completions f (world s).
Proof.
  intros Hp Hz Hq.
  set (t := task p current target frames (Some f) NoEasing).
  assert (Hbuf : animationBuffer (this (enqueue s [t]))
                 = animationBuffer (this s) ++ map (at_frame frames) [t])
    by done.
  destruct (run_endless g f r [t] m _ _ _ Hbuf Hz Hq)
    as (buf' & sm & E & B & _ & C).
  exists (enqueue s [t]), sm, buf'. split.
  { rewrite Primitive_animate_test. cbn [easing_of easing_truthy andb].
    by rewrite andb_false_r, animate_loop_cons, Hp. }
  done.
Qed.

Lemma negative_frames_never_complete_witness :
  exists s1 sm queued,
    Primitive_animate (globals true) [("x", 100)] (-1) (Fn 7%nat) None
      (origin_square (globals true)) = Ret tt s1
    /\ updates (globals true) 0%nat 20 s1 = Ret tt sm
    /\ animationBuffer (this sm)
       = queued ++ [at_frame (-1 - Z.of_nat 20)
                      (task "x" 0 100 (-1) (Some 7%nat) NoEasing)]
    /\ completions 7%nat (world sm)
       = completions 7%nat (world (origin_square (globals true))).
Proof.
  apply (negative_frames_never_complete (globals true) 0%nat
           (origin_square (globals true)) "x" 0 100 (-1) 7%nat 20).
  - reflexivity.
  - lia.
  - apply Forall_nil_2.
Defined.

(** X14.  An animation of zero frames never writes its property: on an
    instance with an empty queue, the first [update()] after
    [animate({p: target}, 0, f)] calls [f], drops the task and leaves the
    properties as [f] leaves them, so that [p] is not set to [target]. *)
Theorem zero_frames_only_call_back (g : Globals) (r : ref) (s : Self)
    (p : string) (current target : Q) (f : fnref) :
  get_prop (this s) p = VNum current ->
  animationBuffer (this s) = [] ->
  f ∉ called (world s) ->
  fn_raises (code g f) = false ->
  exists s1 s2,
    Primitive_animate g [(p, target)] 0 (Fn f) None s = Ret tt s1
    /\ Primitive_update g r s1 = Ret tt s2
    /\ props (this s2) = fn_effect (code g f) (props (this s))
    /\ animationBuffer (this s2) = []
    /\ calls (world s2)
       = calls (world s)
         ++ [ {| call_site := OnComplete; call_this := r; call_fn := f |} ].
Proof.
  intros Hp Hbuf Hf Hret.
  set (t := task p current target 0 (Some f) NoEasing).
  exists (enqueue s [t]). eexists. split.
  { rewrite Primitive_animate_test. cbn [easing_of easing_truthy andb].
    by rewrite andb_false_r, animate_loop_cons, Hp. }
  unfold Primitive_update, bind, get.
  cbn [enqueue this set_animationBuffer animationBuffer]. rewrite Hbuf.
  cbn [app update_tasks]. unfold bind, update_task.
  cbn [t task Animation.frame Animation.callback Z.eqb negb].
  unfold bind, get. cbn [world]. rewrite bool_decide_eq_false_2 by done.
  unfold invoke. rewrite Hret. cbn [mark_called modify ret with_this].
  split; [reflexivity|]. done.
Qed.

Lemma zero_frames_only_call_back_witness :
  let s := origin_square (globals true) in
  exists s1 s2,
    Primitive_animate (globals true) [("x", 100)] 0 (Fn 7%nat) None s
    = Ret tt s1
    /\ Primitive_update (globals true) 0%nat s1 = Ret tt s2
    /\ props (this s2) = fn_effect (code (globals true) 7%nat) (props (this s))
    /\ animationBuffer (this s2) = []
    /\ calls (world s2)
       = calls (world s)
         ++ [ {| call_site := OnComplete; call_this := 0%nat;
                 call_fn := 7%nat |} ].
Proof.
  apply (zero_frames_only_call_back (globals true) 0%nat
           (origin_square (globals true)) "x" 0 100 7%nat).
  - reflexivity.
  - reflexivity.
  - apply (bool_decide_unpack _). vm_compute. reflexivity.
  - reflexivity.
Defined.

(** ** Where the easing functions end *)

(** The easing functions whose value at [t = d] does not go through the
    host's [Math]: all but the sine and circular ones and [easeInExpo].
    The equations below are those of exact arithmetic: what the host
    computes for the same expression differs from them by the rounding of
    its operations (for [easeInBack] at [t = d] the factor
    [(s + 1) * t - s] is [1] here and [0.9999999999999998] in doubles). *)
Definition exact_ending (e : EasingName) : bool :=
  match e with
  | easeInSine | easeOutSine | easeInOutSine | easeInExpo
  | easeInCirc | easeOutCirc | easeInOutCirc => false
  | _ => true
  end.

Section Ending.
Variable d : Q.
Hypothesis d_positive : 0 < d.

Lemma d_nonzero : ~ d == 0.
Proof. intros H. rewrite H in d_positive. by apply Qlt_irrefl in d_positive. Qed.

Lemma d_by_d : d / d == 1.
Proof. field. apply d_nonzero. Qed.

Lemma d_by_half_d : d / (d / 2) == 2.
Proof. field. apply d_nonzero. Qed.

Lemma not_lt_d_by_half_d (k : Q) : k <= 2 -> num_lt (d / (d / 2)) k = false.
Proof.
  intros Hk. unfold num_lt. rewrite d_by_half_d.
  by apply negb_false_iff, Qle_bool_iff.
Qed.

Lemma d_is_not_0 : Qeq_bool d 0 = false.
Proof. apply not_true_iff_false. intros H%Qeq_bool_iff. by apply d_nonzero. Qed.

Lemma d_by_d_is_1 : Qeq_bool (d / d) 1 = true.
Proof. apply Qeq_bool_iff, d_by_d. Qed.

Lemma d_by_half_d_is_2 : Qeq_bool (d / (d / 2)) 2 = true.
Proof. apply Qeq_bool_iff, d_by_half_d. Qed.

Lemma not_lt_d_half_d : num_lt d (d / 2) = false.
Proof.
  unfold num_lt. apply negb_false_iff, Qle_bool_iff.
  apply Qle_shift_div_r; [done|]. rewrite <- (Qmult_1_r d) at 1.
  by apply Qmult_le_l.
Qed.

Lemma easeOutBounce_at_1 (t b c : Q) :
  t / d == 1 -> easeOutBounce_fn t b c d == c + b.
Proof.
  intros Ht. unfold easeOutBounce_fn. cbv zeta.
  assert (Hlt : forall k, k <= 1 -> num_lt (t / d) k = false).
  { intros k Hk. unfold num_lt. rewrite Ht.
    by apply negb_false_iff, Qle_bool_iff. }
  rewrite !Hlt by (unfold Qle; simpl; lia). rewrite Ht. field.
Qed.

Lemma easeOutBounce_at_0 (t b c : Q) :
  t / d == 0 -> easeOutBounce_fn t b c d == b.
Proof.
  intros Ht. unfold easeOutBounce_fn. cbv zeta.
  assert (Hlt : num_lt (t / d) (1 / 2.75) = true)
    by (unfold num_lt; by rewrite Ht).
  rewrite Hlt, Ht. ring.
Qed.

(** At [t = d], [d] positive, each of these functions, evaluated without
    rounding, returns [c + b], whatever the host's [Math]. *)
Lemma Easing_fn_end (h : Host) (e : EasingName) (b c : Q) :
  exact_ending e = true -> Easing_fn h e d b c d == c + b.
Proof using d_positive.
  intros He. pose proof d_nonzero as Hnz.
  destruct e; try discriminate He; cbn [Easing_fn];
    unfold easeInQuad_fn, easeOutQuad_fn, easeInOutQuad_fn, easeInCubic_fn,
      easeOutCubic_fn, easeInOutCubic_fn, easeInQuart_fn, easeOutQuart_fn,
      easeInOutQuart_fn, easeInQuint_fn, easeOutQuint_fn, easeInOutQuint_fn,
      easeOutExpo_fn, easeInOutExpo_fn, easeInElastic_fn, easeOutElastic_fn,
      easeInOutElastic_fn, easeInBack_fn, easeOutBack_fn, easeInOutBack_fn,
      easeInBounce_fn, easeInOutBounce_fn; cbv zeta;
    rewrite ?d_is_not_0, ?Qeq_bool_refl, ?d_by_d_is_1, ?d_by_half_d_is_2,
      ?(not_lt_d_by_half_d 1), ?not_lt_d_half_d by done;
    try (field; done).
  - rewrite easeOutBounce_at_0 by (field; done). ring.
  - by apply easeOutBounce_at_1, d_by_d.
  - rewrite easeOutBounce_at_1 by (field; done). field.
Qed.

End Ending.

(** X15.  An animation of [n] frames, [n] at least one, with an easing of
    the table other than the sine and circular ones and [easeInExpo]:
    after exactly [n] calls of [update()] the property holds what the last
    frame wrote, [current] plus the value of the named curve at [t = n],
    [b = 0], [c = target - current], [d = n]; evaluated without rounding,
    that value is the whole range [target - current], whatever the host's
    [Math] returns, so that the animation ends on [target] within the
    tolerance of the host's floating-point operations.  (The other
    conditions are those of C1.) *)
Theorem animate_reaches_target_with_easing (g : Globals) (r : ref) (s : Self)
    (p : string) (current target : Q) (n : nat) (f : fnref)
    (name : string) (e : EasingName) :
  Easing name = Some e ->
  exact_ending e = true ->
  get_prop (this s) p = VNum current ->
  (0 < n)%nat ->
  quiet g f (animationBuffer (this s)) ->
  exists s1 sn v,
    Primitive_animate g [(p, target)] (Z.of_nat n) (Fn f) (Some name) s
    = Ret tt s1
    /\ map Animation.easing
         (drop (length (animationBuffer (this s))) (animationBuffer (this s1)))
       = [e]
    /\ updates g r n s1 = Ret tt sn
    /\ get_prop (this sn) p = VNum v
    /\ v == current
            + Easing_fn (host g) e (inject_Z (Z.of_nat n)) 0
                (target - current) (inject_Z (Z.of_nat n))
    /\ Easing_fn (host g) e (inject_Z (Z.of_nat n)) 0
         (target - current) (inject_Z (Z.of_nat n))
       == target - current.
Proof.
  intros Hname Hexact Hp Hn Hq.
  set (t := task p current target (Z.of_nat n) (Some f) (Name name)).
  assert (Hbuf : animationBuffer (this (enqueue s [t]))
                 = animationBuffer (this s) ++ map (at_frame (Z.of_nat n)) [t])
    by done.
  assert (He : Animation.easing t = e).
  { unfold t, task, easing_or_default. cbn [Animation.easing easing_key].
    by rewrite Hname. }
  destruct (run_running g f r [t] n _ _ _ Hbuf ltac:(lia) Hq)
    as (buf' & sn & E & _ & _ & _ & _ & P).
  specialize (P [] t Hn eq_refl).
  change (Animation.property t) with p in P.
  exists (enqueue s [t]), sn, (eased g t (Z.of_nat n - Z.of_nat n + 1)).
  split.
  { rewrite Primitive_animate_test. cbn [easing_of easing_key].
    rewrite Hname. cbn [present negb]. rewrite !andb_false_r.
    by rewrite animate_loop_cons, Hp. }
  split.
  { cbn [enqueue this set_animationBuffer animationBuffer].
    rewrite drop_app_length. cbn [map]. by rewrite He. }
  split; [done|]. split; [unfold get_prop; by rewrite P|].
  split.
  - unfold eased. rewrite He.
    change (Animation.length t) with (Z.of_nat n).
    change (Animation.initialValue t) with current.
    change (Animation.range t) with (target - current).
    by replace (Z.of_nat n - (Z.of_nat n - Z.of_nat n + 1) + 1)%Z
      with (Z.of_nat n) by lia.
  - rewrite Easing_fn_end; [ring| |done].
    unfold Qlt. simpl. lia.
Qed.

Lemma animate_reaches_target_with_easing_witness :
  exists s1 sn v,
    Primitive_animate (globals true) [("x", 100)] (Z.of_nat 7) (Fn 7%nat)
      (Some "easeInOutBounce") (origin_square (globals true)) = Ret tt s1
    /\ map Animation.easing
         (drop (length (animationBuffer (this (origin_square (globals true)))))
            (animationBuffer (this s1)))
       = [easeInOutBounce]
    /\ updates (globals true) 0%nat 7 s1 = Ret tt sn
    /\ get_prop (this sn) "x" = VNum v
    /\ v == 0
            + Easing_fn (host (globals true)) easeInOutBounce
                (inject_Z (Z.of_nat 7)) 0 (100 - 0) (inject_Z (Z.of_nat 7))
    /\ Easing_fn (host (globals true)) easeInOutBounce
         (inject_Z (Z.of_nat 7)) 0 (100 - 0) (inject_Z (Z.of_nat 7))
       == 100 - 0.
Proof.
  apply (animate_reaches_target_with_easing (globals true) 0%nat
           (origin_square (globals true)) "x" 0 100 7 7%nat
           "easeInOutBounce" easeInOutBounce).
  - reflexivity.
  - reflexivity.
  - reflexivity.
  - lia.
  - apply Forall_nil_2.
Defined.

(** ** The data *)

(** X16.  [refresh] works for line charts only: for every other context
    (outside the names all objects inherit) it raises a [TypeError],
    whatever the data and whatever [DEBUG], and leaves the data object as
    it was; the supported types ["pie"] and ["venn"] are among them. *)
Theorem Data_refresh_needs_line (g : Globals) (d : Data) :
  data_context d <> "line" ->
  data_context d ∉ Object_prototype_names ->
  exists msg, Data_refresh g d = Raise (TypeError msg) d.
Proof.
  intros Hline _. unfold Data_refresh, bind, get, validateData.
  destruct (String.eqb_spec (data_context d) "line") as [|_]; [done|].
  destruct (String.eqb (data_context d) "pie"); by eexists.
Qed.

Lemma Data_refresh_needs_line_witness :
  let d := {| data_raw := [("a", DValue (VNum 1)); ("b", DValue (VNum 2))];
              data_context := "venn"; data_x := None; data_y := None |} in
  exists msg, Data_refresh (globals false) d = Raise (TypeError msg) d.
Proof.
  intros d. apply (Data_refresh_needs_line (globals false) d).
  - discriminate.
  - apply (bool_decide_unpack _). vm_compute. reflexivity.
Defined.

(** The values [getBounds] looks at in the arrays of the raw data, the
    property [x] left out, in the order of the loops. *)
Definition line_values (raw : RawData) : list Q :=
  flat_map
    (fun entry =>
       if String.eqb (fst entry) "x" then []
       else match snd entry with
            | DArray values => values
            | DValue _ => []
            end)
    raw.

(** A line (a property other than [x]) that is [null] or [undefined]. *)
Definition nullish_line (entry : string * Datum) : bool :=
  negb (String.eqb (fst entry) "x")
  && match snd entry with
     | DValue VUndef | DValue VNull => true
     | _ => false
     end.

(** A line that is a string. *)
Definition string_line (entry : string * Datum) : bool :=
  negb (String.eqb (fst entry) "x")
  && match snd entry with
     | DValue (VStr _) => true
     | _ => false
     end.

Definition number (q : Q) : Item := Num (Finite q).

Lemma bounds_of_items_app (h : Host) (l1 l2 : list Item) (max min : Item) :
  bounds_of_items h (l1 ++ l2) max min
  = let (max1, min1) := bounds_of_items h l1 max min in
    bounds_of_items h l2 max1 min1.
Proof.
  revert max min. induction l1 as [|v l1 IH]; intros max min; simpl.
  - by destruct (bounds_of_items h l2 max min).
  - apply IH.
Qed.

(** At a line that is [null] or [undefined] the loop of [getBounds]
    raises, whatever the other lines are. *)
Lemma bounds_of_lines_nullish (h : Host) (raw : RawData) :
  forall max min,
    existsb nullish_line raw = true -> bounds_of_lines h raw max min = None.
Proof.
  induction raw as [|[line data] raw IH]; intros max min Hex; [done|].
  cbn [existsb bounds_of_lines] in *. unfold nullish_line at 1 in Hex.
  cbn [fst snd] in Hex.
  destruct (String.eqb line "x"); cbn [negb andb orb] in Hex; [by apply IH|].
  destruct data as [l|[]]; cbn [items orb] in *; try done;
    destruct (bounds_of_items _ _ _ _); by apply IH.
Qed.

(** Without such lines and without strings, the loops run over the values
    of the arrays. *)
Lemma bounds_of_lines_values (h : Host) (raw : RawData) :
  forall max min,
    existsb nullish_line raw = false ->
    existsb string_line raw = false ->
    bounds_of_lines h raw max min
    = Some (bounds_of_items h (map number (line_values raw)) max min).
Proof.
  induction raw as [|[line data] raw IH]; intros max min Hnull Hstr; [done|].
  unfold line_values. cbn [existsb bounds_of_lines flat_map fst snd] in *.
  fold (line_values raw).
  unfold nullish_line at 1 in Hnull. unfold string_line at 1 in Hstr.
  cbn [fst snd] in Hnull, Hstr.
  destruct (String.eqb line "x"); cbn [negb andb orb] in Hnull, Hstr;
    [by apply IH|].
  destruct data as [values|[]]; cbn [items orb app map] in *; try done;
    try by apply IH.
  rewrite map_app, bounds_of_items_app. fold number.
  destruct (bounds_of_items h (map number values) max min). by apply IH.
Qed.

Lemma num_lt_false (a b : Q) : num_lt a b = false -> b <= a.
Proof. unfold num_lt. intros H%negb_false_iff. by apply Qle_bool_iff. Qed.

Lemma num_lt_true (a b : Q) : num_lt a b = true -> a < b.
Proof.
  unfold num_lt. intros H%negb_true_iff. apply Qnot_le_lt. intros Hle.
  apply Qle_bool_iff in Hle. congruence.
Qed.

Lemma Item_lt_number (h : Host) (a b : Q) :
  Item_lt h (number a) (number b) = num_lt a b.
Proof. done. Qed.

(** The first value met replaces both infinities. *)
Lemma bounds_of_items_first (h : Host) (v : Q) (rest : list Item) :
  bounds_of_items h (number v :: rest) (Num MinusInfinity) (Num PlusInfinity)
  = bounds_of_items h rest (number v) (number v).
Proof. done. Qed.

(** From finite bounds on, the loop over numbers keeps finite bounds that
    are values met or the bounds it started from, and that bound every
    value met. *)
Lemma bounds_of_items_finite (h : Host) (l : list Q) :
  forall M0 m0 : Q,
    m0 <= M0 ->
    exists M m : Q,
      bounds_of_items h (map number l) (number M0) (number m0)
      = (number M, number m)
      /\ In M (M0 :: l) /\ In m (m0 :: l)
      /\ m <= m0 /\ M0 <= M
      /\ forall v, In v l -> m <= v /\ v <= M.
Proof.
  induction l as [|v l IH]; intros M0 m0 H0.
  - exists M0, m0. split; [done|]. split; [by left|]. split; [by left|].
    split; [apply Qle_refl|]. split; [apply Qle_refl|]. by intros v [].
  - cbn [map bounds_of_items]. rewrite !Item_lt_number.
    destruct (num_lt M0 v) eqn:Habove, (num_lt v m0) eqn:Hbelow.
    + apply num_lt_true in Habove, Hbelow. exfalso.
      apply (Qlt_irrefl v). eapply Qlt_le_trans; [exact Hbelow|].
      eapply Qle_trans; [exact H0|]. by apply Qlt_le_weak.
    + apply num_lt_true in Habove. apply num_lt_false in Hbelow.
      destruct (IH v m0 Hbelow) as (M & m & E & HM & Hm & Hlo & Hhi & Hall).
      exists M, m. split; [done|]. split; [by right|].
      split; [destruct Hm as [<-|?]; [by left|by right; right]|].
      split; [done|]. split.
      * eapply Qle_trans; [|exact Hhi]. by apply Qlt_le_weak.
      * intros w [<-|Hw]; [|by apply Hall].
        split; [|done]. by eapply Qle_trans.
    + apply num_lt_false in Habove. apply num_lt_true in Hbelow.
      destruct (IH M0 v Habove) as (M & m & E & HM & Hm & Hlo & Hhi & Hall).
      exists M, m. split; [done|].
      split; [destruct HM as [<-|?]; [by left|by right; right]|].
      split; [by right|]. split.
      * eapply Qle_trans; [exact Hlo|]. by apply Qlt_le_weak.
      * split; [done|]. intros w [<-|Hw]; [|by apply Hall].
        split; [done|]. by eapply Qle_trans.
    + apply num_lt_false in Habove, Hbelow.
      destruct (IH M0 m0 H0) as (M & m & E & HM & Hm & Hlo & Hhi & Hall).
      exists M, m. split; [done|].
      split; [destruct HM as [<-|?]; [by left|by right; right]|].
      split; [destruct Hm as [<-|?]; [by left|by right; right]|].
      split; [done|]. split; [done|].
      intros w [<-|Hw]; [|by apply Hall].
      split; by eapply Qle_trans.
Qed.

(** X17.  [getBounds] of a line chart none of whose lines is a string.
    Where a line is [null] or [undefined] it raises a [TypeError] and
    changes nothing.  Otherwise it returns: where the arrays of the lines
    hold no value, [{max: -Infinity, min: Infinity, range: -Infinity}];
    where they hold some, [max] and [min] are values of the lines, every
    value of the lines lies between them, and [range] is [max - min],
    which is not negative. *)
Theorem getBounds_bounds {S} (g : Globals) (raw : RawData) (s : S) :
  existsb string_line raw = false ->
  if existsb nullish_line raw then
    exists msg, getBounds g "line" raw s = Raise (TypeError msg) s
  else
    match line_values raw with
    | [] =>
        getBounds g "line" raw s
        = Ret {| Bounds.max := Num MinusInfinity;
                 Bounds.min := Num PlusInfinity;
                 Bounds.range := MinusInfinity |} s
    | _ :: _ =>
        exists M m : Q,
          getBounds g "line" raw s
          = Ret {| Bounds.max := Num (Finite M); Bounds.min := Num (Finite m);
                   Bounds.range := Finite (M - m) |} s
          /\ In M (line_values raw) /\ In m (line_values raw)
          /\ 0 <= M - m
          /\ forall v, In v (line_values raw) -> m <= v /\ v <= M
    end.
Proof.
  intros Hstr. unfold getBounds, bind.
  cbn [String.eqb Ascii.eqb Bool.eqb negb ret].
  destruct (existsb nullish_line raw) eqn:Hnull.
  - rewrite bounds_of_lines_nullish by done. by eexists.
  - rewrite bounds_of_lines_values by done.
    destruct (line_values raw) as [|v l]; [done|].
    cbn [map]. rewrite bounds_of_items_first.
    destruct (bounds_of_items_finite (host g) l v v (Qle_refl v))
      as (M & m & E & HM & Hm & Hlo & Hhi & Hall).
    exists M, m. rewrite E. split; [done|]. split; [done|]. split; [done|].
    split.
    + unfold Qminus. rewrite <- Qle_minus_iff. by eapply Qle_trans.
    + intros w [<-|Hw]; [done|by apply Hall].
Qed.

Lemma getBounds_bounds_witness :
  let lines := [("x", DValue (VNum 10)); ("y", DArray [3; 1; 4]);
                ("fn", DValue VObj); ("y1", DArray [1; 5])] in
  let broken := [("x", DValue (VNum 10)); ("y", DArray [3; 1; 4]);
                 ("y1", DValue VNull)] in
  (exists M m : Q,
      getBounds (globals true) "line" lines tt
      = Ret {| Bounds.max := Num (Finite M); Bounds.min := Num (Finite m);
               Bounds.range := Finite (M - m) |} tt
      /\ In M (line_values lines) /\ In m (line_values lines)
      /\ 0 <= M - m
      /\ forall v, In v (line_values lines) -> m <= v /\ v <= M)
  /\ exists msg,
      getBounds (globals true) "line" broken tt = Raise (TypeError msg) tt.
Proof.
  intros lines broken. split.
  - exact (getBounds_bounds (globals true) lines tt eq_refl).
  - exact (getBounds_bounds (globals true) broken tt eq_refl).
Defined.

(** The points of the lines, where [getPoints] returns. *)
Fixpoint spread (range : option Q) (raw : RawData)
  : list (string * list Point) :=
  match raw with
  | [] => []
  | (y, data) :: rest =>
      if String.eqb y "x" then spread range rest
      else (y, points_of range (default [] (items data))) :: spread range rest
  end.

Lemma points_of_lookup (range : option Q) (arr : list Item) (i : nat) :
  points_of range arr !! i = point_at range (length arr) i <$> arr !! i.
Proof. unfold points_of. apply list_lookup_imap. Qed.

Lemma points_of_ys (range : option Q) (arr : list Item) :
  map point_y (points_of range arr) = arr.
Proof.
  apply list_eq. intros i. rewrite list_lookup_fmap, points_of_lookup.
  by destruct (arr !! i).
Qed.

Lemma spread_names (range : option Q) (raw : RawData) :
  map fst (spread range raw)
  = List.filter (fun line => negb (String.eqb line "x")) (map fst raw).
Proof.
  induction raw as [|[y data] raw IH]; [done|].
  cbn [spread map fst List.filter].
  destruct (String.eqb y "x"); cbn [negb map fst]; by rewrite IH.
Qed.

Lemma spread_In (range : option Q) (raw : RawData) (line : string)
    (arr : list Q) :
  In (line, DArray arr) raw -> line <> "x" ->
  In (line, points_of range (map number arr)) (spread range raw).
Proof.
  intros Hin Hx. induction raw as [|[y data] raw IH]; [done|].
  cbn [spread]. destruct Hin as [[= -> ->]|Hin].
  - destruct (String.eqb_spec line "x"); [done|]. by left.
  - destruct (String.eqb y "x"); [by apply IH|]. right. by apply IH.
Qed.

(** With [this.x] set, the loop of [getPoints] raises exactly at a line
    that is [null] or [undefined]. *)
Lemma points_of_lines_spread {S} (xr : XRange) (raw : RawData) (s : S) :
  forall output,
    if existsb nullish_line raw then
      exists msg, points_of_lines (Some xr) raw output s = Raise (TypeError msg) s
    else
      points_of_lines (Some xr) raw output s
      = Ret (output ++ spread (x_range xr) raw) s.
Proof.
  induction raw as [|[y data] raw IH]; intros output.
  - cbn. by rewrite app_nil_r.
  - cbn [existsb points_of_lines spread]. unfold nullish_line at 1.
    cbn [fst snd].
    destruct (String.eqb y "x"); cbn [negb andb orb]; [apply IH|].
    destruct data as [l|[]]; cbn [items orb default];
      try (by eexists);
      try (specialize (IH (output ++ [(y, [])]));
           destruct (existsb nullish_line raw); [done|];
           by rewrite IH, <- app_assoc).
    + destruct (map (fun q => Num (Finite q)) l) as [|v items] eqn:Hl.
      * specialize (IH (output ++ [(y, [])])).
        destruct (existsb nullish_line raw); [done|].
        by rewrite IH, <- app_assoc.
      * specialize (IH (output ++ [(y, points_of (x_range xr) (v :: items))])).
        destruct (existsb nullish_line raw); [done|].
        by rewrite IH, <- app_assoc.
    + destruct (map Chr (String.list_ascii_of_string s0)) as [|v items] eqn:Hl.
      * specialize (IH (output ++ [(y, [])])).
        destruct (existsb nullish_line raw); [done|].
        by rewrite IH, <- app_assoc.
      * specialize (IH (output ++ [(y, points_of (x_range xr) (v :: items))])).
        destruct (existsb nullish_line raw); [done|].
        by rewrite IH, <- app_assoc.
Qed.

(** X18.  [getPoints], once [sanitize.line] has set a range.  Where a
    line is [null] or [undefined] it raises a [TypeError].  Otherwise the
    result has one entry for each property of the raw data other than
    [x], in their order; the points of a line that is an array have the
    values of the array as their [y], in order; and where the array has
    two values or more, the [x] of its point [i] is
    [(range / (length - 1)) * i], the expression of the source. *)
Theorem getPoints_spreads_lines {S} (xr : XRange) (range : Q) (raw : RawData)
    (s : S) :
  x_range xr = Some range ->
  if existsb nullish_line raw then
    exists msg, getPoints (Some xr) raw s = Raise (TypeError msg) s
  else
    exists points,
      getPoints (Some xr) raw s = Ret points s
      /\ map fst points
         = List.filter (fun line => negb (String.eqb line "x")) (map fst raw)
      /\ forall line arr,
          In (line, DArray arr) raw -> line <> "x" ->
          exists pts,
            In (line, pts) points
            /\ map point_y pts = map number arr
            /\ ((2 <= length arr)%nat ->
                forall i y, arr !! i = Some y ->
                exists x,
                  pts !! i = Some {| point_x := Some x; point_y := number y |}
                  /\ x == range / inject_Z (Z.of_nat (length arr) - 1)
                          * inject_Z (Z.of_nat i)).
Proof.
  intros Hrange. unfold getPoints.
  pose proof (points_of_lines_spread xr raw s []) as Hrun.
  destruct (existsb nullish_line raw); [done|].
  exists (spread (Some range) raw). rewrite Hrun, Hrange.
  split; [done|]. split; [apply spread_names|].
  intros line arr Hin Hx. exists (points_of (Some range) (map number arr)).
  split; [by apply spread_In|]. split; [apply points_of_ys|].
  intros Hlen i y Hi.
  rewrite points_of_lookup, list_lookup_fmap, Hi, length_map.
  cbn [fmap option_fmap option_map]. unfold point_at.
  destruct (Nat.eqb_spec (length arr) 1) as [Heq|_]; [lia|].
  by eexists.
Qed.

Lemma getPoints_spreads_lines_witness :
  let xr := {| x_min := Some 0; x_max := Some 10; x_range := Some 10 |} in
  let raw := [("x", DValue (VNum 10)); ("y", DArray [3; 1; 4; 1; 5])] in
  exists points,
    getPoints (Some xr) raw tt = Ret points tt
    /\ map fst points
       = List.filter (fun line => negb (String.eqb line "x")) (map fst raw)
    /\ forall line arr,
        In (line, DArray arr) raw -> line <> "x" ->
        exists pts,
          In (line, pts) points
          /\ map point_y pts = map number arr
          /\ ((2 <= length arr)%nat ->
              forall i y, arr !! i = Some y ->
              exists x,
                pts !! i = Some {| point_x := Some x; point_y := number y |}
                /\ x == 10 / inject_Z (Z.of_nat (length arr) - 1)
                        * inject_Z (Z.of_nat i)).
Proof.
  intros xr raw. exact (getPoints_spreads_lines xr 10 raw tt eq_refl).
Defined.

(** The raw data [sanitize.line] lets through with [DEBUG] on. *)
Definition well_formed (raw : RawData) : bool :=
  match datum raw "x" with
  | DValue (VNum _) | DArray _ => true
  | DValue _ => false
  end
  && forallb
       (fun entry =>
          String.eqb (fst entry) "x"
          || match snd entry with
             | DArray l => negb (length l <? 2)%nat
             | DValue _ => false
             end)
       raw.

Lemma sanitize_lines_checks (g : Globals) (raw : RawData) (d : Data) :
  DEBUG g = true ->
  if forallb
       (fun entry =>
          String.eqb (fst entry) "x"
          || match snd entry with
             | DArray l => negb (length l <? 2)%nat
             | DValue _ => false
             end)
       raw
  then sanitize_lines g raw d = Ret tt d
       /\ forall max min,
           exists b, bounds_of_lines (host g) raw max min = Some b
  else exists msg, sanitize_lines g raw d = Raise (AristochartError msg) d.
Proof.
  intros Hd. induction raw as [|[line y] raw IH];
    [split; [done|]; intros max min; by eexists|].
  cbn [sanitize_lines bounds_of_lines forallb fst snd].
  destruct (String.eqb line "x"); cbn [orb]; [exact IH|].
  unfold bind, Aristochart_Error. rewrite Hd.
  destruct y as [l|v]; cbn [andb items]; [|by eexists].
  destruct (length l <? 2)%nat; cbn [negb andb]; [by eexists|].
  destruct (forallb _ raw); [|exact IH]. destruct IH as [IH1 IH2].
  split; [exact IH1|]. intros max min.
  destruct (bounds_of_items _ _ _ _). apply IH2.
Qed.

(** X19.  [sanitize.line] with [DEBUG] on, for a line chart: it returns
    exactly for raw data whose [x] is a number or an array and whose every
    other property is an array of two values or more, and then [this.x]
    and [this.y] are set, [this.y] to what [getBounds] returns; for any
    other data it raises and sets nothing. *)
Theorem sanitize_line_checks (g : Globals) (d : Data) :
  DEBUG g = true ->
  data_context d = "line" ->
  if well_formed (data_raw d) then
    exists xr y d',
      sanitize_line g d = Ret tt d'
      /\ getBounds g "line" (data_raw d) d = Ret y d
      /\ data_x d' = Some xr /\ data_y d' = Some y
      /\ data_raw d' = data_raw d /\ data_context d' = "line"
  else
    exists msg, sanitize_line g d = Raise (AristochartError msg) d.
Proof.
  intros Hd Hctx.
  assert (Hgood : forall xr,
             sanitize_x g (data_raw d) d = Ret (Some xr) d ->
             sanitize_lines g (data_raw d) d = Ret tt d
             /\ (forall max min,
                 exists b,
                   bounds_of_lines (host g) (data_raw d) max min = Some b) ->
             exists xr y d',
               sanitize_line g d = Ret tt d'
               /\ getBounds g "line" (data_raw d) d = Ret y d
               /\ data_x d' = Some xr /\ data_y d' = Some y
               /\ data_raw d' = data_raw d /\ data_context d' = "line").
  { intros xr Hx [Hl Hb].
    destruct (Hb (Num MinusInfinity) (Num PlusInfinity)) as [[max min] Hsome].
    unfold sanitize_line, getBounds, bind, get, modify.
    rewrite Hx, Hl, Hctx.
    cbn [String.eqb Ascii.eqb Bool.eqb negb ret data_raw data_context].
    rewrite Hsome.
    eexists xr, _, _. split_all; done. }
  assert (Hbad : forall xr msg,
             sanitize_x g (data_raw d) d = Ret xr d ->
             sanitize_lines g (data_raw d) d = Raise (AristochartError msg) d ->
             exists msg,
               sanitize_line g d = Raise (AristochartError msg) d).
  { intros xr msg Hx Hl. unfold sanitize_line, bind, get.
    rewrite Hx, Hl. by eexists. }
  assert (Hworse : forall msg,
             sanitize_x g (data_raw d) d = Raise (AristochartError msg) d ->
             exists msg,
               sanitize_line g d = Raise (AristochartError msg) d).
  { intros msg Hx. unfold sanitize_line, bind, get. rewrite Hx. by eexists. }
  pose proof (sanitize_lines_checks g (data_raw d) d Hd) as Hl.
  assert (Hx : match datum (data_raw d) "x" with
               | DValue (VNum _) | DArray _ =>
                   exists xr, sanitize_x g (data_raw d) d = Ret (Some xr) d
               | DValue _ =>
                   exists msg,
                   sanitize_x g (data_raw d) d = Raise (AristochartError msg) d
               end).
  { unfold sanitize_x, bind, Aristochart_Error. rewrite Hd.
    destruct (datum (data_raw d) "x") as [[|q [|q' l]]|[]]; by eexists. }
  unfold well_formed. revert Hl Hx.
  destruct (datum (data_raw d) "x") as [l|[]];
    destruct (forallb _ _); cbn [andb]; intros Hl [x Hx]; eauto;
    destruct Hl as [msg Hl]; eauto.
Qed.

Lemma sanitize_line_checks_witness :
  let good := {| data_raw := [("x", DValue (VNum 10)); ("y", DArray [3; 1; 4])];
                 data_context := "line"; data_x := None; data_y := None |} in
  let short := {| data_raw := [("x", DValue (VNum 10)); ("y", DArray [3])];
                  data_context := "line"; data_x := None; data_y := None |} in
  (exists xr y d',
      sanitize_line (globals true) good = Ret tt d'
      /\ getBounds (globals true) "line" (data_raw good) good = Ret y good
      /\ data_x d' = Some xr /\ data_y d' = Some y
      /\ data_raw d' = data_raw good /\ data_context d' = "line")
  /\ exists msg,
      sanitize_line (globals true) short = Raise (AristochartError msg) short.
Proof.
  intros good short. split.
  - exact (sanitize_line_checks (globals true) good eq_refl eq_refl).
  - exact (sanitize_line_checks (globals true) short eq_refl eq_refl).
Defined.

(** ** Rendering and the engine *)

(** An object whose [render()] returns: its [ctx] is an object, it has a
    render function, and that function does not throw. *)
Definition draws (g : Globals) (c : Chart) (r : ref) : bool :=
  match get_prop (objects c !!! r) "ctx",
        render (obj (class (objects c !!! r))) with
  | VObj, Some f => negb (fn_raises (code g f))
  | _, _ => false
  end.

(** The call of [obj.render] its [render()] makes. *)
Definition render_calls (c : Chart) (r : ref) : list Call :=
  match render (obj (class (objects c !!! r))) with
  | Some f => [ {| call_site := OnRender; call_this := r; call_fn := f |} ]
  | None => []
  end.

Lemma render_loop (g : Globals) (l : list ref) :
  forall c,
    NoDup l ->
    Forall (fun r => draws g c r = true) l ->
    exists c',
      for_each l (fun r => on_object r (Primitive_render g r)) c = Ret tt c'
      /\ calls (shared c') = calls (shared c) ++ flat_map (render_calls c) l
      /\ registry c' = registry c.
Proof.
  induction l as [|r l IH]; intros c Hnd Hall.
  - exists c. cbn. by rewrite app_nil_r.
  - apply NoDup_cons in Hnd as [Hr Hnd].
    apply Forall_cons in Hall as [Hdraws Hall].
    cbn [for_each flat_map]. unfold bind at 1.
    unfold draws in Hdraws. unfold render_calls at 1.
    unfold on_object at 1, Primitive_render at 1, bind, get.
    cbn [this].
    destruct (get_prop (objects c !!! r) "ctx"); try done.
    destruct (render (obj (class (objects c !!! r)))) as [f|]; [|done].
    unfold invoke. apply negb_true_iff in Hdraws. rewrite Hdraws.
    cbn [this world called calls].
    match goal with
    | |- exists c', for_each _ _ ?c1 = _ /\ _ =>
        destruct (IH c1) as (c' & Hrun & Hcalls & Hreg); [done| |]
    end.
    + apply Forall_forall. intros r' Hin.
      rewrite Forall_forall in Hall. specialize (Hall r' Hin).
      unfold draws in *. cbn [set_objects objects].
      rewrite lookup_total_insert_ne; [done|]. by intros ->.
    + exists c'. split; [done|]. split; [|done].
      rewrite Hcalls. cbn [set_objects shared calls objects].
      rewrite <- app_assoc. f_equal. cbn [app]. f_equal.
      apply flat_map_eq_on. intros r' Hin. unfold render_calls.
      cbn [set_objects objects].
      rewrite lookup_total_insert_ne; [done|]. by intros ->.
Qed.

(** X20.  [Registry.render] draws from the last index down: where every
    registered object can be drawn (and none is registered twice), it
    returns, and the render functions have been called once for each
    object, the object registered last first, the one registered first
    last. *)
Theorem render_draws_last_registered_first (g : Globals) (c : Chart) :
  NoDup (registry c) ->
  Forall (fun r => draws g c r = true) (registry c) ->
  exists c',
    Registry_render g c = Ret tt c'
    /\ calls (shared c')
       = calls (shared c) ++ flat_map (render_calls c) (rev (registry c))
    /\ registry c' = registry c.
Proof.
  intros Hnd Hall. unfold Registry_render, bind, get.
  apply render_loop.
  - by apply NoDup_ListNoDup, List.NoDup_rev, NoDup_ListNoDup.
  - apply Forall_forall. intros r Hin.
    rewrite Forall_forall in Hall. apply Hall.
    by apply list_elem_of_In, in_rev, list_elem_of_In.
Qed.

Lemma render_draws_last_registered_first_witness :
  let g := globals true in
  let c := final (overlapping g Chart_empty) in
  exists c',
    Registry_render g c = Ret tt c'
    /\ calls (shared c')
       = calls (shared c) ++ flat_map (render_calls c) (rev (registry c))
    /\ registry c' = registry c.
Proof.
  intros g c. apply (render_draws_last_registered_first g c).
  - apply (bool_decide_unpack _). vm_compute. reflexivity.
  - apply (bool_decide_unpack _). vm_compute. reflexivity.
Defined.

(** X21.  [Engine.start] and [Engine.stop]: [start] leaves the engine
    running with one frame requested more than before, whatever the state
    it starts in (also where the engine runs already, and where the first
    tick throws); after [stop], a tick that was requested returns at once,
    changes nothing and requests no further frame. *)
Theorem start_requests_stop_idles (g : Globals) (c : Chart) :
  engine_of (final (Engine_start g c)) = (true, S (requested c))
  /\ (Engine_stop ;; tick g) c = Ret tt (set_running c false).
Proof.
  split; [|done].
  unfold Engine_start. unfold bind at 1. cbn [modify].
  by rewrite tick_requests_next.
Qed.

(** ** The constructor of a primitive *)






